(** * The Clear Containers proxy client and its wire-protocol constants

  A shallow embedding of [api/protocol.go] (protocol version, frame types,
  opcode spaces, frame header) and of [client/client.go] (the request
  engine [sendPayload], [errorFromResponse] and the five catalog
  operations), with the properties the specification states about them. *)

From Stdlib Require Import ZArith String List Lia.
From Stdlib Require Import Floats.SpecFloat.
From stdpp Require Import gmap strings list pretty.

Local Open Scope string_scope.
Local Open Scope Z_scope.

(** ** Go values the client handles *)

(** An [error] made by [errors.New]; [nil] is [None : option error]. *)
Inductive error := errors_New (text : string).

Definition error_text (e : error) : string :=
  match e with errors_New text => text end.

(** A dynamically typed value ([interface{}]) as [encoding/json] decodes
    one: [nil], [bool], [float64], [string], [[]interface{}] or
    [map[string]interface{}]. A [float64] is a [spec_float]. *)
#[warnings="-register-all"]
Inductive Value :=
| VNil
| VBool (b : bool)
| VFloat64 (f : spec_float)
| VString (s : string)
| VSlice (l : list Value)
| VMap (m : gmap string Value).

(** The dynamic type of a value, as a run-time error prints it. *)
Definition dynamic_type (v : Value) : string :=
  match v with
  | VNil => "nil"
  | VBool _ => "bool"
  | VFloat64 _ => "float64"
  | VString _ => "string"
  | VSlice _ => "[]interface {}"
  | VMap _ => "map[string]interface {}"
  end.

Definition is_float64 (v : Value) : bool :=
  match v with VFloat64 _ => true | _ => false end.

(** A run-time panic. The client can raise one only through the one-result
    type assertion [val.(float64)]: "interface conversion: interface {} is
    [concrete], not [asserted]". *)
Inductive panic := TypeAssertionError (concrete asserted : string).

(** How a Go call ends: it returns, or it panics and unwinds. *)
Inductive Outcome (A : Type) :=
| Normal (a : A)
| Panic (p : panic).
Arguments Normal {A} a.
Arguments Panic {A} p.

(** [val.(float64)] *)
Definition assert_float64 (val : Value) : Outcome spec_float :=
  match val with
  | VFloat64 f => Normal f
  | _ => Panic (TypeAssertionError (dynamic_type val) "float64")
  end.

(** *** Integer widths and narrowing conversions *)

(** [int] and [uintptr] are 32 or 64 bits wide. *)
Inductive Arch := Arch32 | Arch64.

Definition intSize (a : Arch) : Z :=
  match a with Arch32 => 32 | Arch64 => 64 end.

(** When a floating-point value converted to an integer type is not
    representable in it, "the conversion succeeds but the result value is
    implementation-dependent": the platform says which value comes out. *)
Record Platform := mkPlatform {
  arch : Arch;
  int_unrepresentable : spec_float -> Z;
  uint64_unrepresentable : spec_float -> Z;
}.

Definition wrap_unsigned (bits z : Z) : Z := z mod 2 ^ bits.

Definition wrap_signed (bits z : Z) : Z :=
  (z + 2 ^ (bits - 1)) mod 2 ^ bits - 2 ^ (bits - 1).

Definition fits_signed (bits z : Z) : bool :=
  (- 2 ^ (bits - 1) <=? z) && (z <? 2 ^ (bits - 1)).

Definition fits_unsigned (bits z : Z) : bool :=
  (0 <=? z) && (z <? 2 ^ bits).

(** The fraction of a finite float discarded (truncation towards zero);
    infinities and NaN have no integer part. *)
Definition float64_trunc (f : spec_float) : option Z :=
  match f with
  | S754_zero _ => Some 0
  | S754_finite s m e =>
      let mag := Z.shiftl (Z.pos m) e in
      Some (if s then - mag else mag)
  | S754_infinity _ | S754_nan => None
  end.

(** [int(f)] for [f float64] *)
Definition float64_to_int (P : Platform) (f : spec_float) : Z :=
  let bits := intSize (arch P) in
  match float64_trunc f with
  | Some z => if fits_signed bits z then z
              else wrap_signed bits (int_unrepresentable P f)
  | None => wrap_signed bits (int_unrepresentable P f)
  end.

(** [(uint64)(f)] for [f float64] *)
Definition float64_to_uint64 (P : Platform) (f : spec_float) : Z :=
  match float64_trunc f with
  | Some z => if fits_unsigned 64 z then z
              else wrap_unsigned 64 (uint64_unrepresentable P f)
  | None => wrap_unsigned 64 (uint64_unrepresentable P f)
  end.

(** The [float64] nearest to an integer, as decoding a JSON integer
    literal gives it (53-bit precision, round to nearest even). *)
Definition float64_of_Z (z : Z) : spec_float :=
  binary_normalize 53 1024 z 0 false.

(** *** Package os: files *)

(** An [os.File]: the descriptor it wraps and its name. *)
Record File := mkFile {
  file_fd : Z;
  file_name : string;
}.

(** [uintptr(fd)] and back to [int], as [os.NewFile] does. *)
Definition to_uintptr (P : Platform) (z : Z) : Z :=
  wrap_unsigned (intSize (arch P)) z.

Definition uintptr_to_int (P : Platform) (u : Z) : Z :=
  wrap_signed (intSize (arch P)) u.

(** [os.NewFile(fd, name)]: [nil] when [fd] is not a valid descriptor
    ([int(fd) < 0]), else a file wrapping it. *)
Definition os_NewFile (P : Platform) (fd : Z) (name : string) : option File :=
  let fdi := uintptr_to_int P fd in
  if fdi <? 0 then None else Some (mkFile fdi name).

(** ** Package api: protocol.go *)

Module api.

(** [const Version = 2] *)
Definition Version : Z := 2.

(** [type FrameType int], constants numbered by [iota]. *)
Definition FrameType := Z.
Definition TypeCommand      : FrameType := 0.
Definition TypeResponse     : FrameType := 1.
Definition TypeStream       : FrameType := 2.
Definition TypeNotification : FrameType := 3.
Definition typeMax          : FrameType := 4.

(** [type Command int], constants numbered by [iota]. *)
Definition Command := Z.
Definition CmdRegisterVM     : Command := 0.
Definition CmdUnregisterVM   : Command := 1.
Definition CmdAttachVM       : Command := 2.
Definition CmdHyper          : Command := 3.
Definition CmdConnectShim    : Command := 4.
Definition CmdDisconnectShim : Command := 5.
Definition CmdSignal         : Command := 6.
Definition cmdMax            : Command := 7.

(** [type Stream int], constants numbered by [iota]. *)
Definition Stream := Z.
Definition StreamStdin  : Stream := 0.
Definition StreamStdout : Stream := 1.
Definition StreamStderr : Stream := 2.
Definition streamMax    : Stream := 3.

(** The values each const block declares, sentinel excluded. *)
Definition FrameTypes : list FrameType :=
  [TypeCommand; TypeResponse; TypeStream; TypeNotification].
Definition Commands : list Command :=
  [CmdRegisterVM; CmdUnregisterVM; CmdAttachVM; CmdHyper;
   CmdConnectShim; CmdDisconnectShim; CmdSignal].
Definition Streams : list Stream :=
  [StreamStdin; StreamStdout; StreamStderr].

(** "In the frame header, Opcode must have one of these values when Type
    is api.TypeCommand" (resp. [api.TypeStream]): the opcode space a frame
    type selects, and the sentinel that bounds it. *)
Definition opcode_space (ty : FrameType) : option (list Z) :=
  if ty =? TypeCommand then Some Commands
  else if ty =? TypeStream then Some Streams
  else None.

Definition opcode_max (ty : FrameType) : option Z :=
  if ty =? TypeCommand then Some cmdMax
  else if ty =? TypeStream then Some streamMax
  else None.

Definition valid_opcode (ty : FrameType) (op : Z) : bool :=
  match opcode_space ty with
  | Some space => bool_decide (op ∈ space)
  | None => false
  end.

(** [type FrameHeader struct] *)
Record FrameHeader := mkFrameHeader {
  hdr_Version       : Z;  (* uint16 *)
  hdr_HeaderLength  : Z;  (* uint8  *)
  hdr_pad0          : Z;  (* uint8  *)
  hdr_pad1          : Z;  (* uint16 *)
  hdr_pad2          : Z;  (* uint8  *)
  hdr_Type          : Z;  (* uint8  *)
  hdr_Opcode        : Z;  (* uint16 *)
  hdr_PayloadLength : Z;  (* uint32 *)
}.

(** Every field holds a value of its declared width. *)
Definition FrameHeader_wf (h : FrameHeader) : bool :=
  fits_unsigned 16 (hdr_Version h) &&
  fits_unsigned 8  (hdr_HeaderLength h) &&
  fits_unsigned 8  (hdr_pad0 h) &&
  fits_unsigned 16 (hdr_pad1 h) &&
  fits_unsigned 8  (hdr_pad2 h) &&
  fits_unsigned 8  (hdr_Type h) &&
  fits_unsigned 16 (hdr_Opcode h) &&
  fits_unsigned 32 (hdr_PayloadLength h).

(** *** The envelope, the payloads and the transport *)

(** [[]byte] *)
Definition bytes := list Byte.byte.

(** Modelled from the spec: [api.Request], whose declaration is not among
    the sources. "{ID: operation name string, Data: opaque encoded body}";
    [Data] is [None] while it is the nil slice. *)
Record Request := mkRequest {
  req_ID : string;
  req_Data : option bytes;
}.

(** Modelled from the spec: [api.Response], whose declaration is not among
    the sources. "{Success: boolean, Error: optional message string, Data:
    mapping from string key to dynamically-typed value}". *)
Record Response := mkResponse {
  resp_Success : bool;
  resp_Error : string;
  resp_Data : gmap string Value;
}.

(** Modelled from the spec: the payload records [api.RegisterVM],
    [api.Attach], [api.AllocateIo], [api.Hyper] and [api.UnregisterVM],
    whose declarations are not among the sources; the fields are those
    [client.go] sets. *)
Record RegisterVM := mkRegisterVM {
  RegisterVM_ContainerID : string;
  RegisterVM_CtlSerial : string;
  RegisterVM_IoSerial : string;
  RegisterVM_Console : string;
}.

Record Attach := mkAttach {
  Attach_ContainerID : string;
}.

Record AllocateIo := mkAllocateIo {
  AllocateIo_NStreams : Z;
}.

Record Hyper := mkHyper {
  Hyper_HyperName : string;
  Hyper_Data : option bytes;
}.

Record UnregisterVM := mkUnregisterVM {
  UnregisterVM_ContainerID : string;
}.

(** A call the client makes on its connection. *)
Inductive Event :=
| EvWriteMessage (ty : FrameType) (req : Request)
| EvReadMessage
| EvReadFd.

(** The [net.UnixConn] seen from the client: what the peer and the socket
    will answer, and the calls made on the connection so far, oldest
    first. [conn_broken] is the error a write meets, if any; [conn_replies]
    holds the outcome of each coming read of a frame, [conn_fds] the outcome
    of each coming receipt of a descriptor. A read that finds nothing left
    meets the end of the stream. *)
Record UnixConn := mkConn {
  conn_broken : option error;
  conn_replies : list (error + Response);
  conn_fds : list (error + Z);
  conn_trace : list Event;
}.

Definition io_EOF : error := errors_New "EOF".

Definition record (ev : Event) (c : UnixConn) : UnixConn :=
  mkConn (conn_broken c) (conn_replies c) (conn_fds c) (conn_trace c ++ [ev]).

(** A computation on the connection: it ends with an outcome and leaves
    the connection in a new state. *)
Definition Go (A : Type) : Type := UnixConn -> Outcome A * UnixConn.

Definition ret {A} (a : A) : Go A := fun c => (Normal a, c).

Definition bind {A B} (m : Go A) (k : A -> Go B) : Go B :=
  fun c =>
    match m c with
    | (Normal a, c') => k a c'
    | (Panic p, c') => (Panic p, c')
    end.

Definition lift {A} (o : Outcome A) : Go A := fun c => (o, c).

(** Modelled from the spec: [api.WriteMessage(conn, &req)], which is not
    among the sources. It "writes it as a Command-type frame"; "if either
    write fails the call fails with a TransportError". *)
Definition WriteMessage (req : Request) : Go (option error) :=
  fun c => (Normal (conn_broken c), record (EvWriteMessage TypeCommand req) c).

(** Modelled from the spec: [api.ReadMessage(conn, &resp)], which is not
    among the sources. It "blocks reading the next frame on the same
    connection and decodes it as a Response". *)
Definition ReadMessage : Go (error + Response) :=
  fun c =>
    match conn_replies c with
    | [] => (Normal (inl io_EOF), record EvReadMessage c)
    | r :: rest =>
        (Normal r,
         mkConn (conn_broken c) rest (conn_fds c)
                (conn_trace c ++ [EvReadMessage]))
    end.

(** Modelled from the spec: [api.ReadFd(conn)], which is not among the
    sources. "receiveFd(connection) -> fd"; "failure to receive an expected
    descriptor is a FdTransferError". *)
Definition ReadFd : Go (error + Z) :=
  fun c =>
    match conn_fds c with
    | [] => (Normal (inl io_EOF), record EvReadFd c)
    | r :: rest =>
        (Normal r,
         mkConn (conn_broken c) (conn_replies c) rest
                (conn_trace c ++ [EvReadFd]))
    end.

End api.

Notation "'do' x <- m ;; k" := (api.bind m (fun x => k))
  (at level 10, x name, m at level 99, k at level 200,
   format "'[v' 'do'  x  <-  m  ;; '/' k ']'").

(** ** Package client: client.go *)

Module client.

(** [type RegisterVMOptions struct] *)
Record RegisterVMOptions := mkRegisterVMOptions {
  Console : string;
}.

(** [type RegisterVMReturn struct] *)
Record RegisterVMReturn := mkRegisterVMReturn {
  RegisterVM_Version : Z;
}.

(** [type AttachOptions struct] *)
Record AttachOptions := mkAttachOptions { }.

(** [type AttachReturn struct] *)
Record AttachReturn := mkAttachReturn {
  Attach_Version : Z;
}.

(** [errorFromResponse(resp) error] *)
Definition errorFromResponse (resp : api.Response) : option error :=
  if negb (api.resp_Success resp) then
    if negb (String.eqb (api.resp_Error resp) EmptyString) then
      Some (errors_New (api.resp_Error resp))
    else
      Some (errors_New "unknown error")
  else
    None.

Section Client.

(** The platform the client is built for. *)
Variable P : Platform.

(** The values a caller may hand to [Hyper] as [hyperMessage]. *)
Variable Message : Type.

(** What [sendPayload] and [json.Marshal] receive as [interface{}]: a
    pointer to one of the payload records, or a caller's message. *)
Inductive any :=
| any_RegisterVM (p : api.RegisterVM)
| any_Attach (p : api.Attach)
| any_AllocateIo (p : api.AllocateIo)
| any_Hyper (p : api.Hyper)
| any_UnregisterVM (p : api.UnregisterVM)
| any_Message (m : Message).

(** [json.Marshal]: the encoding, or the error of a value it cannot
    encode. *)
Variable json_Marshal : any -> error + api.bytes.

(** [sendPayload(id string, payload interface{})], which returns a
    pointer to the [api.Response] read, or an error. *)
Definition sendPayload (id : string) (payload : option any)
  : api.Go (error + api.Response) :=
  let data :=
    match payload with
    | Some v =>
        match json_Marshal v with
        | inl err => inl err
        | inr b => inr (Some b)
        end
    | None => inr None
    end in
  match data with
  | inl err => api.ret (inl err)
  | inr d =>
      let req := api.mkRequest id d in
      do werr <- api.WriteMessage req ;;
      match werr with
      | Some err => api.ret (inl err)
      | None =>
          do r <- api.ReadMessage ;;
          match r with
          | inl err => api.ret (inl err)
          | inr resp => api.ret (inr resp)
          end
      end
  end.

(** [RegisterVM(containerID, ctlSerial, ioSerial string, options)], which
    returns a pointer to a [RegisterVMReturn] and an error; [options] is a
    pointer that may be nil. *)
Definition RegisterVM (containerID ctlSerial ioSerial : string)
    (options : option RegisterVMOptions)
  : api.Go (option RegisterVMReturn * option error) :=
  let payload :=
    api.mkRegisterVM containerID ctlSerial ioSerial
      (match options with
       | Some o => Console o
       | None => EmptyString
       end) in
  do r <- sendPayload "register" (Some (any_RegisterVM payload)) ;;
  match r with
  | inl err => api.ret (None, Some err)
  | inr resp =>
      match api.resp_Data resp !! "version" with
      | None =>
          api.ret (None, Some (errors_New "RegisterVM: no version in response"))
      | Some val =>
          do f <- api.lift (assert_float64 val) ;;
          api.ret (Some (mkRegisterVMReturn (float64_to_int P f)),
                   errorFromResponse resp)
      end
  end.

(** [Attach(containerID string, options)], which returns a pointer to an
    [AttachReturn] and an error. *)
Definition Attach (containerID : string) (options : option AttachOptions)
  : api.Go (option AttachReturn * option error) :=
  let hello := api.mkAttach containerID in
  do r <- sendPayload "attach" (Some (any_Attach hello)) ;;
  match r with
  | inl err => api.ret (None, Some err)
  | inr resp =>
      match api.resp_Data resp !! "version" with
      | None =>
          api.ret (None, Some (errors_New "attach: no version in response"))
      | Some val =>
          do f <- api.lift (assert_float64 val) ;;
          api.ret (Some (mkAttachReturn (float64_to_int P f)),
                   errorFromResponse resp)
      end
  end.

(** [AllocateIo(nStreams int)], with the named results [ioBase uint64],
    [ioFile] (a pointer to an [os.File]) and [err error]: a bare [return]
    hands back their current values, which start at [0], [nil], [nil]. *)
Definition AllocateIo (nStreams : Z)
  : api.Go (Z * option File * option error) :=
  let allocate := api.mkAllocateIo nStreams in
  do r <- sendPayload "allocateIO" (Some (any_AllocateIo allocate)) ;;
  match r with
  | inl err => api.ret (0, None, Some err)
  | inr resp =>
      match errorFromResponse resp with
      | Some err => api.ret (0, None, Some err)
      | None =>
          match api.resp_Data resp !! "ioBase" with
          | None =>
              api.ret (0, None,
                       Some (errors_New "allocateio: no ioBase in response"))
          | Some val =>
              do f <- api.lift (assert_float64 val) ;;
              let ioBase := float64_to_uint64 P f in
              do rfd <- api.ReadFd ;;
              match rfd with
              | inl _ =>
                  api.ret (0, None,
                           Some (errors_New "allocateio: couldn't read fd"))
              | inr newFd =>
                  let ioFile := os_NewFile P (to_uintptr P newFd) EmptyString in
                  api.ret (ioBase, ioFile, None)
              end
          end
      end
  end.

(** [Hyper(hyperName string, hyperMessage interface{}) error] *)
Definition Hyper (hyperName : string) (hyperMessage : option Message)
  : api.Go (option error) :=
  let data :=
    match hyperMessage with
    | Some m =>
        match json_Marshal (any_Message m) with
        | inl err => inl err
        | inr b => inr (Some b)
        end
    | None => inr None
    end in
  match data with
  | inl err => api.ret (Some err)
  | inr d =>
      let hyper := api.mkHyper hyperName d in
      do r <- sendPayload "hyper" (Some (any_Hyper hyper)) ;;
      match r with
      | inl err => api.ret (Some err)
      | inr resp => api.ret (errorFromResponse resp)
      end
  end.

(** [UnregisterVM(containerID string) error] *)
Definition UnregisterVM (containerID : string) : api.Go (option error) :=
  let payload := api.mkUnregisterVM containerID in
  do r <- sendPayload "unregister" (Some (any_UnregisterVM payload)) ;;
  match r with
  | inl err => api.ret (Some err)
  | inr resp => api.ret (errorFromResponse resp)
  end.

End Client.

Arguments any_RegisterVM {Message} p.
Arguments any_Attach {Message} p.
Arguments any_AllocateIo {Message} p.
Arguments any_Hyper {Message} p.
Arguments any_UnregisterVM {Message} p.
Arguments any_Message {Message} m.
Arguments sendPayload {Message} json_Marshal id payload.
Arguments RegisterVM P {Message} json_Marshal containerID ctlSerial ioSerial options.
Arguments Attach P {Message} json_Marshal containerID options.
Arguments AllocateIo P {Message} json_Marshal nStreams.
Arguments Hyper {Message} json_Marshal hyperName hyperMessage.
Arguments UnregisterVM {Message} json_Marshal containerID.

End client.

(** ** A peer and a caller for the examples *)

(** A 64-bit platform on which a conversion of an unrepresentable value
    yields the integer with only the top bit set. *)
Definition platform64 : Platform :=
  mkPlatform Arch64 (fun _ => - 2 ^ 63) (fun _ => 2 ^ 63).

(** Messages of an example caller: a text, or the [float64] NaN, which
    [json.Marshal] refuses. *)
Inductive ExampleMessage :=
| MsgText (s : string)
| MsgNaN.

Definition quoted (s : string) : string :=
  let dq := String (Ascii.ascii_of_nat 34) EmptyString in
  (dq ++ s ++ dq)%string.

Definition member (key value : string) : string :=
  (quoted key ++ ":" ++ value)%string.

Definition object (members : list string) : string :=
  ("{" ++ String.concat "," members ++ "}")%string.

(** An encoder standing in for [json.Marshal] in the examples: records
    become objects keyed by field name; texts are quoted as they are (the
    examples use none that needs escaping). *)
Definition example_Marshal (v : client.any ExampleMessage) : error + api.bytes :=
  match v with
  | client.any_RegisterVM p =>
      inr (list_byte_of_string (object
        [member "ContainerID" (quoted (api.RegisterVM_ContainerID p));
         member "CtlSerial" (quoted (api.RegisterVM_CtlSerial p));
         member "IoSerial" (quoted (api.RegisterVM_IoSerial p));
         member "Console" (quoted (api.RegisterVM_Console p))]))
  | client.any_Attach p =>
      inr (list_byte_of_string (object
        [member "ContainerID" (quoted (api.Attach_ContainerID p))]))
  | client.any_AllocateIo p =>
      inr (list_byte_of_string (object
        [member "NStreams" (pretty (api.AllocateIo_NStreams p))]))
  | client.any_Hyper p =>
      inr (list_byte_of_string (object
        [member "HyperName" (quoted (api.Hyper_HyperName p));
         member "Data"
           (match api.Hyper_Data p with
            | Some b => string_of_list_byte b
            | None => "null"
            end)]))
  | client.any_UnregisterVM p =>
      inr (list_byte_of_string (object
        [member "ContainerID" (quoted (api.UnregisterVM_ContainerID p))]))
  | client.any_Message (MsgText s) => inr (list_byte_of_string (quoted s))
  | client.any_Message MsgNaN =>
      inl (errors_New "json: unsupported value: NaN")
  end.

(** A connection on which the peer answers the next request with [resp]
    and passes the descriptors [fds] on the side channel. *)
Definition answering (resp : api.Response) (fds : list (error + Z))
  : api.UnixConn :=
  api.mkConn None [inr resp] fds [].

(** A connection whose peer has gone: writes fail. *)
Definition broken_pipe : api.UnixConn :=
  api.mkConn (Some (errors_New "write: broken pipe")) [] [] [].

(** Replies of the example peer. *)
Definition version_2 : gmap string Value :=
  {[ "version" := VFloat64 (float64_of_Z 2) ]}.

Definition version_text : gmap string Value :=
  {[ "version" := VString "2" ]}.

Definition ioBase_1024 : gmap string Value :=
  {[ "ioBase" := VFloat64 (float64_of_Z 1024) ]}.

Definition ioBase_text : gmap string Value :=
  {[ "ioBase" := VString "1024" ]}.

(** ** What the environment is assumed to do *)

(** The five payload records (strings, an integer, bytes that
    [json.Marshal] produced) as opposed to a caller's message. *)
Definition is_payload {Message} (v : client.any Message) : bool :=
  match v with
  | client.any_Message _ => false
  | _ => true
  end.

(** [json.Marshal] encodes every payload record; a caller's message it may
    refuse. *)
Definition encodes_payloads {Message}
    (json_Marshal : client.any Message -> error + api.bytes) : Prop :=
  forall v, is_payload v = true -> exists b, json_Marshal v = inr b.

(** The calls one request makes on a connection in state [c]: the frame
    written, then the read of the reply unless the write failed. *)
Definition round_trip (req : api.Request) (c : api.UnixConn) : list api.Event :=
  api.EvWriteMessage api.TypeCommand req ::
  match api.conn_broken c with
  | None => [api.EvReadMessage]
  | Some _ => []
  end.

(** The state a connection is left in by a request the peer answered. *)
Definition after_reply (req : api.Request) (c : api.UnixConn) : api.UnixConn :=
  api.mkConn (api.conn_broken c) (tail (api.conn_replies c)) (api.conn_fds c)
             (api.conn_trace c ++ [api.EvWriteMessage api.TypeCommand req;
                                   api.EvReadMessage]).

(** What the next read of a frame returns. *)
Definition next_reply (c : api.UnixConn) : error + api.Response :=
  match api.conn_replies c with
  | [] => inl api.io_EOF
  | r :: _ => r
  end.

(** What the next receipt of a descriptor returns. *)
Definition next_fd (c : api.UnixConn) : error + Z :=
  match api.conn_fds c with
  | [] => inl api.io_EOF
  | r :: _ => r
  end.

(** The state a connection is left in by the receipt of a descriptor. *)
Definition after_fd (c : api.UnixConn) : api.UnixConn :=
  api.mkConn (api.conn_broken c) (api.conn_replies c) (tail (api.conn_fds c))
             (api.conn_trace c ++ [api.EvReadFd]).

(** What a request carrying the value [v] comes back with on a connection
    in state [c]: the error of the encoding, of the write or of the read,
    whichever comes first, or the response read. *)
Definition delivery {Message}
    (json_Marshal : client.any Message -> error + api.bytes)
    (v : client.any Message) (c : api.UnixConn) : error + api.Response :=
  match json_Marshal v with
  | inl err => inl err
  | inr _ =>
      match api.conn_broken c with
      | Some err => inl err
      | None => next_reply c
      end
  end.

(** The [Data] of the payload [Hyper] builds from a caller's message: nil
    for a nil message, else its encoding. *)
Definition hyper_data {Message}
    (json_Marshal : client.any Message -> error + api.bytes)
    (hyperMessage : option Message) : error + option api.bytes :=
  match hyperMessage with
  | Some m =>
      match json_Marshal (client.any_Message m) with
      | inl err => inl err
      | inr b => inr (Some b)
      end
  | None => inr None
  end.

(** The payload [RegisterVM] builds from its arguments. *)
Definition register_payload (containerID ctlSerial ioSerial : string)
    (options : option client.RegisterVMOptions) : api.RegisterVM :=
  api.mkRegisterVM containerID ctlSerial ioSerial
    match options with
    | Some o => client.Console o
    | None => EmptyString
    end.

(** A caller that makes the calls of a list one after the other on the
    same connection and collects what they return; a panic ends it. *)
Fixpoint in_turn {A} (calls : list (api.Go A)) : api.Go (list A) :=
  match calls with
  | [] => api.ret []
  | call :: more =>
      do a <- call ;;
      do rest <- in_turn more ;;
      api.ret (a :: rest)
  end.

(** The connection with [n] replies taken off its queue and [evs] added to
    its trace. *)
Definition advanced (n : nat) (evs : list api.Event) (c : api.UnixConn)
  : api.UnixConn :=
  api.mkConn (api.conn_broken c) (drop n (api.conn_replies c)) (api.conn_fds c)
             (api.conn_trace c ++ evs).

(** The state a request leaves the connection in, whatever became of it. *)
Definition left_by {Message}
    (json_Marshal : client.any Message -> error + api.bytes)
    (id : string) (v : client.any Message) (c : api.UnixConn)
  : api.UnixConn :=
  snd (client.sendPayload json_Marshal id (Some v) c).

(** The encoding of a value when [json.Marshal] accepts it. *)
Definition encoded {Message}
    (json_Marshal : client.any Message -> error + api.bytes)
    (v : client.any Message) : option api.bytes :=
  match json_Marshal v with
  | inr b => Some b
  | inl _ => None
  end.

(** The calls on the connection that unregistering the containers of a
    list makes when every request is written and answered. *)
Definition unregister_calls {Message}
    (json_Marshal : client.any Message -> error + api.bytes)
    (cids : list string) : list api.Event :=
  flat_map
    (fun cid =>
       [api.EvWriteMessage api.TypeCommand
          (api.mkRequest "unregister"
             (encoded json_Marshal
                (client.any_UnregisterVM (api.mkUnregisterVM cid))));
        api.EvReadMessage])
    cids.

(** * Properties *)

(** ** The protocol constants *)

Ltac enum_range :=
  rewrite !elem_of_cons, elem_of_nil;
  unfold api.typeMax, api.cmdMax, api.streamMax,
    api.TypeCommand, api.TypeResponse, api.TypeStream,
    api.TypeNotification, api.CmdRegisterVM, api.CmdUnregisterVM,
    api.CmdAttachVM, api.CmdHyper, api.CmdConnectShim,
    api.CmdDisconnectShim, api.CmdSignal, api.StreamStdin,
    api.StreamStdout, api.StreamStderr;
  lia.

Lemma FrameTypes_range (ty : Z) :
  ty ∈ api.FrameTypes <-> 0 <= ty < api.typeMax.
Proof. unfold api.FrameTypes. enum_range. Qed.

Lemma Commands_range (op : Z) :
  op ∈ api.Commands <-> 0 <= op < api.cmdMax.
Proof. unfold api.Commands. enum_range. Qed.

Lemma Streams_range (op : Z) :
  op ∈ api.Streams <-> 0 <= op < api.streamMax.
Proof. unfold api.Streams. enum_range. Qed.

Lemma opcode_space_cases (ty : Z) :
  (ty = api.TypeCommand /\ api.opcode_space ty = Some api.Commands
     /\ api.opcode_max ty = Some api.cmdMax) \/
  (ty = api.TypeStream /\ api.opcode_space ty = Some api.Streams
     /\ api.opcode_max ty = Some api.streamMax) \/
  (api.opcode_space ty = None /\ api.opcode_max ty = None).
Proof.
  unfold api.opcode_space, api.opcode_max.
  destruct (Z.eqb_spec ty api.TypeCommand) as [-> | ?]; [left; easy |].
  destruct (Z.eqb_spec ty api.TypeStream) as [-> | ?]; [right; left; easy |].
  right; right; easy.
Qed.

(** C7: the frame types are numbered Command=0, Response=1, Stream=2,
    Notification=3; the Command opcodes RegisterVM=0 .. Signal=6; the Stream
    opcodes Stdin=0, Stdout=1, Stderr=2. Each declared set is exactly the
    range from 0 up to its sentinel ([typeMax], [cmdMax], [streamMax]), and
    an opcode is valid for its frame type exactly when it lies below that
    type's sentinel: one at or past the maximum is invalid. *)
Theorem enumerations_closed :
  (api.TypeCommand = 0 /\ api.TypeResponse = 1 /\ api.TypeStream = 2 /\
   api.TypeNotification = 3) /\
  (api.CmdRegisterVM = 0 /\ api.CmdUnregisterVM = 1 /\ api.CmdAttachVM = 2 /\
   api.CmdHyper = 3 /\ api.CmdConnectShim = 4 /\ api.CmdDisconnectShim = 5 /\
   api.CmdSignal = 6) /\
  (api.StreamStdin = 0 /\ api.StreamStdout = 1 /\ api.StreamStderr = 2) /\
  (forall ty : Z, ty ∈ api.FrameTypes <-> 0 <= ty < api.typeMax) /\
  (forall op : Z, op ∈ api.Commands <-> 0 <= op < api.cmdMax) /\
  (forall op : Z, op ∈ api.Streams <-> 0 <= op < api.streamMax) /\
  (forall ty op max, api.opcode_max ty = Some max ->
     (api.valid_opcode ty op = true <-> 0 <= op < max)) /\
  (forall ty op max, api.opcode_max ty = Some max -> max <= op ->
     api.valid_opcode ty op = false).
Proof.
  assert (Hvalid : forall ty op max, api.opcode_max ty = Some max ->
            (api.valid_opcode ty op = true <-> 0 <= op < max)).
  { intros ty op max Hmax. unfold api.valid_opcode.
    destruct (opcode_space_cases ty) as [(_ & -> & Hm) | [(_ & -> & Hm) | (_ & Hm)]];
      rewrite Hm in Hmax; [| | discriminate]; injection Hmax as <-;
      rewrite bool_decide_eq_true.
    - apply Commands_range.
    - apply Streams_range. }
  split_and!; try reflexivity;
    auto using FrameTypes_range, Commands_range, Streams_range.
  intros ty op max Hmax Hle.
  apply not_true_is_false. intros Hv.
  apply (Hvalid ty op max Hmax) in Hv. lia.
Qed.

(** C8: the protocol version constant is 2, a value the 16-bit [Version]
    field of a frame header holds: a well-formed header stays well-formed
    with its [Version] set to the constant. *)
Theorem Version_is_2 :
  api.Version = 2 /\
  fits_unsigned 16 api.Version = true /\
  (forall h, api.FrameHeader_wf h = true ->
     api.FrameHeader_wf
       (api.mkFrameHeader api.Version (api.hdr_HeaderLength h)
          (api.hdr_pad0 h) (api.hdr_pad1 h) (api.hdr_pad2 h)
          (api.hdr_Type h) (api.hdr_Opcode h) (api.hdr_PayloadLength h))
     = true).
Proof.
  split; [reflexivity |]. split; [reflexivity |].
  intros [v hl p0 p1 p2 ty op len]. unfold api.FrameHeader_wf. simpl.
  rewrite !andb_true_iff. intuition.
Qed.

(** ** The request engine *)

Lemma example_Marshal_encodes : encodes_payloads example_Marshal.
Proof. intros [p | p | p | p | p | m] Hp; try discriminate; simpl; eauto. Qed.

Section ClientProps.

Context (P : Platform) {Message : Type}
        (json_Marshal : client.any Message -> error + api.bytes).

Lemma sendPayload_nil id c :
  client.sendPayload json_Marshal id None c =
  let req := api.mkRequest id None in
  match api.conn_broken c with
  | Some err =>
      (Normal (inl err), api.record (api.EvWriteMessage api.TypeCommand req) c)
  | None => (Normal (next_reply c), after_reply req c)
  end.
Proof.
  unfold client.sendPayload, api.bind, api.WriteMessage, api.ReadMessage,
    api.ret, next_reply, after_reply, api.record; simpl.
  destruct (api.conn_broken c); [reflexivity |]; simpl.
  destruct (api.conn_replies c) as [| [err | resp] rest]; simpl;
    rewrite <- ?app_assoc; reflexivity.
Qed.

Lemma sendPayload_encoded id v b c :
  json_Marshal v = inr b ->
  client.sendPayload json_Marshal id (Some v) c =
  let req := api.mkRequest id (Some b) in
  match api.conn_broken c with
  | Some err =>
      (Normal (inl err), api.record (api.EvWriteMessage api.TypeCommand req) c)
  | None => (Normal (next_reply c), after_reply req c)
  end.
Proof.
  intros Hm.
  unfold client.sendPayload, api.bind, api.WriteMessage, api.ReadMessage,
    api.ret, next_reply, after_reply, api.record; rewrite Hm; simpl.
  destruct (api.conn_broken c); [reflexivity |]; simpl.
  destruct (api.conn_replies c) as [| [err | resp] rest]; simpl;
    rewrite <- ?app_assoc; reflexivity.
Qed.

Lemma sendPayload_refused id v err c :
  json_Marshal v = inl err ->
  client.sendPayload json_Marshal id (Some v) c = (Normal (inl err), c).
Proof.
  intros Hm. unfold client.sendPayload. rewrite Hm. reflexivity.
Qed.

(** A request the peer answers with [resp]. *)
Lemma sendPayload_answered id v b c resp rest :
  json_Marshal v = inr b ->
  api.conn_broken c = None ->
  api.conn_replies c = inr resp :: rest ->
  client.sendPayload json_Marshal id (Some v) c =
  (Normal (inr resp), after_reply (api.mkRequest id (Some b)) c).
Proof.
  intros Hm Hw Hr. rewrite (sendPayload_encoded _ _ _ _ Hm); simpl.
  unfold next_reply. rewrite Hw, Hr. reflexivity.
Qed.

Hypothesis payloads_encode : encodes_payloads json_Marshal.

(** Unfold one operation up to the reply of the peer. *)
Ltac answered id v Hw Hr :=
  let b := fresh "b" in
  let Hb := fresh "Hb" in
  destruct (payloads_encode v eq_refl) as [b Hb];
  exists (api.mkRequest id (Some b));
  unfold client.RegisterVM, client.Attach, client.AllocateIo,
    client.UnregisterVM, api.bind;
  rewrite (sendPayload_answered _ _ _ _ _ _ Hb Hw Hr).

Lemma RegisterVM_answered cid ctl io opts c resp rest :
  api.conn_broken c = None ->
  api.conn_replies c = inr resp :: rest ->
  exists req,
    client.RegisterVM P json_Marshal cid ctl io opts c =
    (match api.resp_Data resp !! "version" with
     | None => Normal (None, Some (errors_New "RegisterVM: no version in response"))
     | Some val =>
         match assert_float64 val with
         | Normal f =>
             Normal (Some (client.mkRegisterVMReturn (float64_to_int P f)),
                     client.errorFromResponse resp)
         | Panic p => Panic p
         end
     end, after_reply req c).
Proof.
  intros Hw Hr.
  answered "register" (client.any_RegisterVM (Message := Message)
              (api.mkRegisterVM cid ctl io
                 match opts with Some o => client.Console o | None => EmptyString end))
           Hw Hr.
  destruct (api.resp_Data resp !! "version") as [val |]; [| reflexivity].
  unfold api.lift, api.ret. destruct (assert_float64 val); reflexivity.
Qed.

Lemma Attach_answered cid opts c resp rest :
  api.conn_broken c = None ->
  api.conn_replies c = inr resp :: rest ->
  exists req,
    client.Attach P json_Marshal cid opts c =
    (match api.resp_Data resp !! "version" with
     | None => Normal (None, Some (errors_New "attach: no version in response"))
     | Some val =>
         match assert_float64 val with
         | Normal f =>
             Normal (Some (client.mkAttachReturn (float64_to_int P f)),
                     client.errorFromResponse resp)
         | Panic p => Panic p
         end
     end, after_reply req c).
Proof.
  intros Hw Hr.
  answered "attach" (client.any_Attach (Message := Message) (api.mkAttach cid)) Hw Hr.
  destruct (api.resp_Data resp !! "version") as [val |]; [| reflexivity].
  unfold api.lift, api.ret. destruct (assert_float64 val); reflexivity.
Qed.

Lemma assert_float64_wrong val :
  is_float64 val = false ->
  assert_float64 val = Panic (TypeAssertionError (dynamic_type val) "float64").
Proof. destruct val; simpl; intros H; (discriminate || reflexivity). Qed.

(** ** Errors derived from a response *)

(** C2: a response with [Success = false] yields an error carrying exactly
    its [Error] text when that text is not empty ("busy" gives the error
    "busy"), and the message "unknown error" when it is empty; a response
    with [Success = true] yields the nil error. *)
Theorem errorFromResponse_remote :
  (forall text data, text <> EmptyString ->
     client.errorFromResponse (api.mkResponse false text data)
     = Some (errors_New text)) /\
  (forall data,
     client.errorFromResponse (api.mkResponse false EmptyString data)
     = Some (errors_New "unknown error")) /\
  (forall data,
     client.errorFromResponse (api.mkResponse false "busy" data)
     = Some (errors_New "busy")) /\
  (forall text data,
     client.errorFromResponse (api.mkResponse true text data) = None).
Proof.
  split_and!; try reflexivity.
  intros text data Hne. unfold client.errorFromResponse; simpl.
  destruct (String.eqb_spec text EmptyString); [contradiction | reflexivity].
Qed.

(** ** Decoding the version *)

(** C4: when the response read lacks the key "version", [RegisterVM]
    returns a nil result with the error "RegisterVM: no version in
    response", and [Attach] a nil result with the error "attach: no version
    in response"; neither panics, and nothing more is read from the
    connection. *)
Theorem version_missing c resp rest :
  api.conn_broken c = None ->
  api.conn_replies c = inr resp :: rest ->
  api.resp_Data resp !! "version" = None ->
  (forall cid ctl io opts, exists req,
     client.RegisterVM P json_Marshal cid ctl io opts c =
     (Normal (None, Some (errors_New "RegisterVM: no version in response")),
      after_reply req c)) /\
  (forall cid opts, exists req,
     client.Attach P json_Marshal cid opts c =
     (Normal (None, Some (errors_New "attach: no version in response")),
      after_reply req c)).
Proof.
  intros Hw Hr Hv. split.
  - intros cid ctl io opts.
    destruct (RegisterVM_answered cid ctl io opts c resp rest Hw Hr) as [req ->].
    rewrite Hv. eauto.
  - intros cid opts.
    destruct (Attach_answered cid opts c resp rest Hw Hr) as [req ->].
    rewrite Hv. eauto.
Qed.

(** C6: [Attach] of "container-A" against a peer that replies with
    [Success = true] and [Data = {version: 2}] returns a result whose
    [Version] is 2 and a nil error. *)
Theorem Attach_version_2 c text rest opts :
  api.conn_broken c = None ->
  api.conn_replies c =
    inr (api.mkResponse true text {[ "version" := VFloat64 (float64_of_Z 2) ]})
    :: rest ->
  exists req,
    client.Attach P json_Marshal "container-A" opts c =
    (Normal (Some (client.mkAttachReturn 2), None), after_reply req c).
Proof.
  intros Hw Hr.
  destruct (Attach_answered "container-A" opts c _ rest Hw Hr) as [req ->].
  exists req. simpl api.resp_Data. rewrite lookup_singleton_eq. simpl.
  f_equal. f_equal. f_equal. f_equal.
  unfold float64_to_int. destruct (arch P); reflexivity.
Qed.

(** C9: [RegisterVM] and [Attach] look "version" up before they consult
    [Success]. On a reply with [Success = false] that lacks the key they
    return the missing-field error, not the remote one; on a reply with
    [Success = false] whose "version" is a number they return a non-nil
    result holding that number narrowed to [int], together with the remote
    error. *)
Theorem version_before_success c text data rest :
  api.conn_broken c = None ->
  api.conn_replies c = inr (api.mkResponse false text data) :: rest ->
  let remote := errors_New (if String.eqb text EmptyString
                            then "unknown error" else text) in
  (data !! "version" = None ->
     (forall cid ctl io opts,
        fst (client.RegisterVM P json_Marshal cid ctl io opts c) =
        Normal (None, Some (errors_New "RegisterVM: no version in response"))) /\
     (forall cid opts,
        fst (client.Attach P json_Marshal cid opts c) =
        Normal (None, Some (errors_New "attach: no version in response")))) /\
  (forall f, data !! "version" = Some (VFloat64 f) ->
     (forall cid ctl io opts,
        fst (client.RegisterVM P json_Marshal cid ctl io opts c) =
        Normal (Some (client.mkRegisterVMReturn (float64_to_int P f)),
                Some remote)) /\
     (forall cid opts,
        fst (client.Attach P json_Marshal cid opts c) =
        Normal (Some (client.mkAttachReturn (float64_to_int P f)),
                Some remote))).
Proof.
  intros Hw Hr remote.
  assert (Hremote : client.errorFromResponse (api.mkResponse false text data)
                    = Some remote).
  { unfold client.errorFromResponse, remote; simpl.
    destruct (String.eqb text EmptyString); reflexivity. }
  split; [intros Hv | intros f Hv]; split.
  - intros cid ctl io opts.
    destruct (RegisterVM_answered cid ctl io opts c _ rest Hw Hr) as [req ->].
    simpl. rewrite Hv. reflexivity.
  - intros cid opts.
    destruct (Attach_answered cid opts c _ rest Hw Hr) as [req ->].
    simpl. rewrite Hv. reflexivity.
  - intros cid ctl io opts.
    destruct (RegisterVM_answered cid ctl io opts c _ rest Hw Hr) as [req ->].
    simpl api.resp_Data. rewrite Hv. simpl. rewrite Hremote. reflexivity.
  - intros cid opts.
    destruct (Attach_answered cid opts c _ rest Hw Hr) as [req ->].
    simpl api.resp_Data. rewrite Hv. simpl. rewrite Hremote. reflexivity.
Qed.

Lemma ReadFd_next c : api.ReadFd c = (Normal (next_fd c), after_fd c).
Proof.
  unfold api.ReadFd, next_fd, after_fd, api.record.
  destruct (api.conn_fds c) as [| r fds] eqn:Hfds; simpl; reflexivity.
Qed.

Lemma os_NewFile_valid fd name :
  0 <= fd < 2 ^ 31 ->
  os_NewFile P (to_uintptr P fd) name = Some (mkFile fd name).
Proof.
  intros Hfd.
  unfold os_NewFile, to_uintptr, uintptr_to_int, wrap_unsigned, wrap_signed.
  assert (Hint : intSize (arch P) = 32 \/ intSize (arch P) = 64)
    by (destruct (arch P); simpl; auto).
  change (2 ^ 31) with 2147483648 in Hfd.
  destruct Hint as [-> | ->]; simpl Z.sub;
    [ change (2 ^ 32) with 4294967296; change (2 ^ 31) with 2147483648
    | change (2 ^ 64) with 18446744073709551616;
      change (2 ^ 63) with 9223372036854775808 ];
    rewrite (Z.mod_small fd) by lia;
    rewrite Z.mod_small by lia;
    match goal with
    | |- context [?a + ?b - ?b] => replace (a + b - b) with a by lia
    end;
    (destruct (Z.ltb_spec fd 0) as [Hneg | _]; [lia | reflexivity]).
Qed.

Lemma AllocateIo_answered n c resp rest :
  api.conn_broken c = None ->
  api.conn_replies c = inr resp :: rest ->
  exists req,
    api.req_ID req = "allocateIO" /\
    client.AllocateIo P json_Marshal n c =
    match client.errorFromResponse resp with
    | Some err => (Normal (0, None, Some err), after_reply req c)
    | None =>
        match api.resp_Data resp !! "ioBase" with
        | None =>
            (Normal (0, None,
                     Some (errors_New "allocateio: no ioBase in response")),
             after_reply req c)
        | Some val =>
            match assert_float64 val with
            | Panic p => (Panic p, after_reply req c)
            | Normal f =>
                (match next_fd (after_reply req c) with
                 | inl _ =>
                     Normal (0, None,
                             Some (errors_New "allocateio: couldn't read fd"))
                 | inr newFd =>
                     Normal (float64_to_uint64 P f,
                             os_NewFile P (to_uintptr P newFd) EmptyString,
                             None)
                 end, after_fd (after_reply req c))
            end
        end
    end.
Proof.
  intros Hw Hr.
  answered "allocateIO"
    (client.any_AllocateIo (Message := Message) (api.mkAllocateIo n)) Hw Hr.
  split; [reflexivity |].
  destruct (client.errorFromResponse resp); [reflexivity |].
  destruct (api.resp_Data resp !! "ioBase") as [val |]; [| reflexivity].
  unfold api.lift, api.ret. destruct (assert_float64 val); [| reflexivity].
  rewrite ReadFd_next.
  destruct (next_fd _); reflexivity.
Qed.

(** C1, as the code has it: when the response read binds the expected
    numeric key to a value that is not a number, no error is returned for
    it. [RegisterVM] and [Attach] panic on the type assertion, whatever
    [Success] says; [AllocateIo] panics likewise when [Success = true], and
    returns the remote error, without looking at "ioBase", when
    [Success = false]. *)
Theorem wrong_shape_panics c resp rest val :
  api.conn_broken c = None ->
  api.conn_replies c = inr resp :: rest ->
  is_float64 val = false ->
  let crash := TypeAssertionError (dynamic_type val) "float64" in
  (api.resp_Data resp !! "version" = Some val ->
     (forall cid ctl io opts,
        fst (client.RegisterVM P json_Marshal cid ctl io opts c) = Panic crash) /\
     (forall cid opts,
        fst (client.Attach P json_Marshal cid opts c) = Panic crash)) /\
  (api.resp_Data resp !! "ioBase" = Some val ->
     forall n,
       fst (client.AllocateIo P json_Marshal n c) =
       if api.resp_Success resp then Panic crash
       else Normal (0, None, client.errorFromResponse resp)).
Proof.
  intros Hw Hr Hval crash. split; [intros Hv; split | intros Hv n].
  - intros cid ctl io opts.
    destruct (RegisterVM_answered cid ctl io opts c _ rest Hw Hr) as [req ->].
    rewrite Hv, (assert_float64_wrong _ Hval). reflexivity.
  - intros cid opts.
    destruct (Attach_answered cid opts c _ rest Hw Hr) as [req ->].
    rewrite Hv, (assert_float64_wrong _ Hval). reflexivity.
  - destruct (AllocateIo_answered n c _ rest Hw Hr) as (req & _ & ->).
    unfold client.errorFromResponse.
    destruct (api.resp_Success resp); simpl.
    + rewrite Hv, (assert_float64_wrong _ Hval). reflexivity.
    + destruct (negb (String.eqb (api.resp_Error resp) EmptyString));
        reflexivity.
Qed.

(** ** Allocating I/O channels *)

(** C10: on a reply with [Success = false], [AllocateIo] returns 0, a nil
    file and the remote error at once. The result is the same whatever
    [Data] holds, and the connection is left as the request and the read of
    the reply left it: no descriptor is received. *)
Theorem AllocateIo_remote_failure c text data rest n :
  api.conn_broken c = None ->
  api.conn_replies c = inr (api.mkResponse false text data) :: rest ->
  exists req,
    api.req_ID req = "allocateIO" /\
    client.AllocateIo P json_Marshal n c =
    (Normal (0, None,
             Some (errors_New (if String.eqb text EmptyString
                               then "unknown error" else text))),
     after_reply req c) /\
    api.conn_fds (after_reply req c) = api.conn_fds c /\
    api.conn_trace (after_reply req c) =
    (api.conn_trace c ++ [api.EvWriteMessage api.TypeCommand req;
                          api.EvReadMessage])%list.
Proof.
  intros Hw Hr.
  destruct (AllocateIo_answered n c _ rest Hw Hr) as (req & Hid & ->).
  exists req. split_and!; try reflexivity; [assumption |].
  unfold client.errorFromResponse; simpl.
  destruct (String.eqb text EmptyString); reflexivity.
Qed.

(** C3: [AllocateIo 4] against a peer that replies with [Success = true]
    and [Data = {ioBase: 1024}] and passes one descriptor returns 1024, a
    file wrapping that descriptor and a nil error, having received exactly
    one descriptor after the reply. If the receipt fails it returns 0, a nil
    file and the error "allocateio: couldn't read fd". The descriptor is
    asked for only once "ioBase" is decoded: on a successful reply without
    "ioBase", or with an "ioBase" that is not a number, none is received. *)
Theorem AllocateIo_1024 c :
  api.conn_broken c = None ->
  (forall text rest,
     api.conn_replies c =
       inr (api.mkResponse true text
              {[ "ioBase" := VFloat64 (float64_of_Z 1024) ]}) :: rest ->
     exists req,
       api.req_ID req = "allocateIO" /\
       (forall fd fds,
          api.conn_fds c = inr fd :: fds -> 0 <= fd < 2 ^ 31 ->
          client.AllocateIo P json_Marshal 4 c =
          (Normal (1024, Some (mkFile fd EmptyString), None),
           api.mkConn None rest fds
             (api.conn_trace c ++ [api.EvWriteMessage api.TypeCommand req;
                                   api.EvReadMessage; api.EvReadFd]))) /\
       (forall err, next_fd c = inl err ->
          client.AllocateIo P json_Marshal 4 c =
          (Normal (0, None, Some (errors_New "allocateio: couldn't read fd")),
           after_fd (after_reply req c)))) /\
  (forall resp rest,
     api.conn_replies c = inr resp :: rest ->
     api.resp_Success resp = true ->
     exists req,
       api.conn_fds (after_reply req c) = api.conn_fds c /\
       (api.resp_Data resp !! "ioBase" = None ->
          client.AllocateIo P json_Marshal 4 c =
          (Normal (0, None,
                   Some (errors_New "allocateio: no ioBase in response")),
           after_reply req c)) /\
       (forall val,
          api.resp_Data resp !! "ioBase" = Some val ->
          is_float64 val = false ->
          client.AllocateIo P json_Marshal 4 c =
          (Panic (TypeAssertionError (dynamic_type val) "float64"),
           after_reply req c))).
Proof.
  intros Hw. split.
  - intros text rest Hr.
    destruct (AllocateIo_answered 4 c _ rest Hw Hr) as (req & Hid & ->).
    exists req. split; [assumption |].
    unfold client.errorFromResponse.
    cbn [api.resp_Data api.resp_Success negb].
    rewrite lookup_singleton_eq. cbn [assert_float64].
    assert (Hbase : float64_to_uint64 P (float64_of_Z 1024) = 1024)
      by reflexivity.
    rewrite Hbase. split.
    + intros fd fds Hfd Hrange.
      unfold next_fd, after_fd, after_reply; simpl.
      rewrite Hfd, Hw, Hr; simpl.
      rewrite (os_NewFile_valid fd EmptyString Hrange).
      rewrite <- app_assoc. reflexivity.
    + intros err Herr.
      assert (Hnext : next_fd (after_reply req c) = inl err) by exact Herr.
      rewrite Hnext. reflexivity.
  - intros resp rest Hr Hs.
    destruct (AllocateIo_answered 4 c _ rest Hw Hr) as (req & Hid & ->).
    exists req. unfold client.errorFromResponse.
    rewrite Hs. cbn [negb]. split_and!; [reflexivity | |].
    + intros ->. reflexivity.
    + intros val -> Hval. rewrite (assert_float64_wrong _ Hval). reflexivity.
Qed.

(** ** One request, one reply *)

Ltac one_round_trip c v :=
  let b := fresh "b" in
  let Hb := fresh "Hb" in
  destruct (payloads_encode v eq_refl) as [b Hb];
  exists b; split; [exact Hb |];
  unfold client.RegisterVM, client.Attach, client.AllocateIo, client.Hyper,
    client.UnregisterVM, api.bind;
  try match goal with
      | H : json_Marshal (client.any_Message _) = inr _ |- _ => rewrite H
      end;
  rewrite (sendPayload_encoded _ _ _ _ Hb); cbv zeta;
  unfold round_trip;
  destruct (api.conn_broken c) as [werr |];
    [first [reflexivity | left; reflexivity] |];
  unfold next_reply;
  destruct (api.conn_replies c) as [| [rerr | resp] rest];
    try first [reflexivity | left; reflexivity].

(** C5, as the code has it: an invocation of a catalog operation whose
    payload is encoded builds one [Request] whose [ID] is the operation's
    name ("register", "attach", "allocateIO", "hyper", "unregister") and
    whose [Data] is the encoding of the payload ([Data] stays nil only for
    a nil payload), and writes it once as a Command frame. One read of a
    reply follows when that write succeeded and none when it failed;
    [AllocateIo] may then receive one descriptor. When [json.Marshal]
    refuses the value, nothing is written or read. *)
Theorem one_request_per_call c :
  (forall id,
     api.conn_trace (snd (client.sendPayload json_Marshal id None c)) =
     (api.conn_trace c ++ round_trip (api.mkRequest id None) c)%list) /\
  (forall id v,
     match json_Marshal v with
     | inr b =>
         api.conn_trace (snd (client.sendPayload json_Marshal id (Some v) c)) =
         (api.conn_trace c ++ round_trip (api.mkRequest id (Some b)) c)%list
     | inl err =>
         client.sendPayload json_Marshal id (Some v) c = (Normal (inl err), c)
     end) /\
  (forall cid ctl io opts, exists b,
     json_Marshal
       (client.any_RegisterVM
          (api.mkRegisterVM cid ctl io
             match opts with
             | Some o => client.Console o
             | None => EmptyString
             end)) = inr b /\
     api.conn_trace (snd (client.RegisterVM P json_Marshal cid ctl io opts c)) =
     (api.conn_trace c
      ++ round_trip (api.mkRequest "register" (Some b)) c)%list) /\
  (forall cid opts, exists b,
     json_Marshal (client.any_Attach (api.mkAttach cid)) = inr b /\
     api.conn_trace (snd (client.Attach P json_Marshal cid opts c)) =
     (api.conn_trace c ++ round_trip (api.mkRequest "attach" (Some b)) c)%list) /\
  (forall n, exists b,
     json_Marshal (client.any_AllocateIo (api.mkAllocateIo n)) = inr b /\
     let calls :=
       (api.conn_trace c
        ++ round_trip (api.mkRequest "allocateIO" (Some b)) c)%list in
     let after := api.conn_trace (snd (client.AllocateIo P json_Marshal n c)) in
     after = calls \/ after = (calls ++ [api.EvReadFd])%list) /\
  (forall name msg,
     let sent data := exists b,
       json_Marshal (client.any_Hyper (api.mkHyper name data)) = inr b /\
       api.conn_trace (snd (client.Hyper json_Marshal name msg c)) =
       (api.conn_trace c ++ round_trip (api.mkRequest "hyper" (Some b)) c)%list in
     match msg with
     | None => sent None
     | Some m =>
         match json_Marshal (client.any_Message m) with
         | inr d => sent (Some d)
         | inl err =>
             client.Hyper json_Marshal name msg c = (Normal (Some err), c)
         end
     end) /\
  (forall cid, exists b,
     json_Marshal (client.any_UnregisterVM (api.mkUnregisterVM cid)) = inr b /\
     api.conn_trace (snd (client.UnregisterVM json_Marshal cid c)) =
     (api.conn_trace c
      ++ round_trip (api.mkRequest "unregister" (Some b)) c)%list).
Proof.
  split_and!.
  - intros id. rewrite sendPayload_nil; cbv zeta. unfold round_trip.
    destruct (api.conn_broken c); reflexivity.
  - intros id v. destruct (json_Marshal v) as [err | b] eqn:Hm.
    + apply sendPayload_refused, Hm.
    + rewrite (sendPayload_encoded _ _ _ _ Hm); cbv zeta. unfold round_trip.
      destruct (api.conn_broken c); reflexivity.
  - intros cid ctl io opts.
    one_round_trip c (client.any_RegisterVM (Message := Message)
      (api.mkRegisterVM cid ctl io
         match opts with Some o => client.Console o | None => EmptyString end)).
    destruct (api.resp_Data resp !! "version") as [val |]; [| reflexivity].
    unfold api.lift. destruct (assert_float64 val); reflexivity.
  - intros cid opts.
    one_round_trip c (client.any_Attach (Message := Message) (api.mkAttach cid)).
    destruct (api.resp_Data resp !! "version") as [val |]; [| reflexivity].
    unfold api.lift. destruct (assert_float64 val); reflexivity.
  - intros n.
    one_round_trip c (client.any_AllocateIo (Message := Message)
                      (api.mkAllocateIo n)).
    destruct (client.errorFromResponse resp); [left; reflexivity |].
    destruct (api.resp_Data resp !! "ioBase") as [val |]; [| left; reflexivity].
    unfold api.lift. destruct (assert_float64 val); [| left; reflexivity].
    rewrite ReadFd_next. right.
    destruct (next_fd _); simpl; rewrite <- app_assoc; reflexivity.
  - intros name [m |]; cbv zeta.
    + destruct (json_Marshal (client.any_Message m)) as [err | d] eqn:Hm.
      * unfold client.Hyper. rewrite Hm. reflexivity.
      * one_round_trip c (client.any_Hyper (Message := Message)
                          (api.mkHyper name (Some d))).
    + one_round_trip c (client.any_Hyper (Message := Message)
                        (api.mkHyper name None)).
  - intros cid.
    one_round_trip c (client.any_UnregisterVM (Message := Message)
                      (api.mkUnregisterVM cid)).
Qed.

End ClientProps.

(** ** The properties at work on the example peer *)

Lemma version_missing_witness :
  let c := answering (api.mkResponse true EmptyString ∅) [] in
  (exists req,
     client.RegisterVM platform64 example_Marshal "c1" "ctl" "io" None c =
     (Normal (None, Some (errors_New "RegisterVM: no version in response")),
      after_reply req c)) /\
  (exists req,
     client.Attach platform64 example_Marshal "c1" None c =
     (Normal (None, Some (errors_New "attach: no version in response")),
      after_reply req c)).
Proof.
  intros c.
  destruct (version_missing platform64 example_Marshal example_Marshal_encodes
              c (api.mkResponse true EmptyString ∅) []
              eq_refl eq_refl eq_refl) as [Hreg Hatt].
  split; [apply Hreg | apply Hatt].
Defined.

Lemma Attach_version_2_witness :
  let c := answering (api.mkResponse true EmptyString version_2) [] in
  exists req,
    client.Attach platform64 example_Marshal "container-A" None c =
    (Normal (Some (client.mkAttachReturn 2), None), after_reply req c).
Proof.
  intros c.
  exact (Attach_version_2 platform64 example_Marshal example_Marshal_encodes
           c EmptyString [] None eq_refl eq_refl).
Defined.

Lemma version_before_success_witness :
  fst (client.RegisterVM platform64 example_Marshal "c1" "ctl" "io" None
         (answering (api.mkResponse false "busy" ∅) [])) =
  Normal (None, Some (errors_New "RegisterVM: no version in response")) /\
  fst (client.Attach platform64 example_Marshal "c1" None
         (answering (api.mkResponse false "busy" version_2) [])) =
  Normal (Some (client.mkAttachReturn 2), Some (errors_New "busy")).
Proof.
  split.
  - exact (proj1 (proj1 (version_before_success platform64 example_Marshal
                           example_Marshal_encodes
                           (answering (api.mkResponse false "busy" ∅) [])
                           "busy" ∅ [] eq_refl eq_refl) eq_refl)
             "c1" "ctl" "io" None).
  - exact (proj2 (proj2 (version_before_success platform64 example_Marshal
                           example_Marshal_encodes
                           (answering (api.mkResponse false "busy" version_2) [])
                           "busy" version_2 [] eq_refl eq_refl)
                    (float64_of_Z 2) eq_refl)
             "c1" None).
Defined.

(** C1 fails on the code: with "version" bound to the text "2", [RegisterVM]
    returns no error to its caller; it panics. *)
Lemma RegisterVM_text_version_crashes :
  ~ exists ret err,
      fst (client.RegisterVM platform64 example_Marshal "c1" "ctl" "io" None
             (answering (api.mkResponse true EmptyString version_text) [])) =
      Normal (ret, Some err).
Proof.
  intros (ret & err & H). vm_compute in H. discriminate H.
Qed.

Lemma wrong_shape_panics_witness :
  fst (client.RegisterVM platform64 example_Marshal "c1" "ctl" "io" None
         (answering (api.mkResponse true EmptyString version_text) [])) =
  Panic (TypeAssertionError "string" "float64") /\
  fst (client.AllocateIo platform64 example_Marshal 4
         (answering (api.mkResponse true EmptyString ioBase_text) [inr 7])) =
  Panic (TypeAssertionError "string" "float64").
Proof.
  split.
  - exact (proj1 (proj1 (wrong_shape_panics platform64 example_Marshal
                           example_Marshal_encodes
                           (answering (api.mkResponse true EmptyString version_text) [])
                           (api.mkResponse true EmptyString version_text) []
                           (VString "2") eq_refl eq_refl eq_refl) eq_refl)
             "c1" "ctl" "io" None).
  - exact (proj2 (wrong_shape_panics platform64 example_Marshal
                    example_Marshal_encodes
                    (answering (api.mkResponse true EmptyString ioBase_text) [inr 7])
                    (api.mkResponse true EmptyString ioBase_text) []
                    (VString "1024") eq_refl eq_refl eq_refl) eq_refl 4).
Defined.

Lemma AllocateIo_remote_failure_witness :
  let c := answering (api.mkResponse false "busy" ioBase_1024) [inr 7] in
  exists req,
    api.req_ID req = "allocateIO" /\
    client.AllocateIo platform64 example_Marshal 4 c =
    (Normal (0, None, Some (errors_New "busy")), after_reply req c) /\
    api.conn_fds (after_reply req c) = [inr 7] /\
    api.conn_trace (after_reply req c) =
    [api.EvWriteMessage api.TypeCommand req; api.EvReadMessage].
Proof.
  intros c.
  exact (AllocateIo_remote_failure platform64 example_Marshal
           example_Marshal_encodes c "busy" ioBase_1024 [] 4 eq_refl eq_refl).
Defined.

Lemma AllocateIo_1024_witness :
  let c := answering (api.mkResponse true EmptyString ioBase_1024) [inr 7] in
  exists req,
    api.req_ID req = "allocateIO" /\
    client.AllocateIo platform64 example_Marshal 4 c =
    (Normal (1024, Some (mkFile 7 EmptyString), None),
     api.mkConn None [] []
       [api.EvWriteMessage api.TypeCommand req; api.EvReadMessage;
        api.EvReadFd]).
Proof.
  intros c.
  destruct (proj1 (AllocateIo_1024 platform64 example_Marshal
                     example_Marshal_encodes c eq_refl)
              EmptyString [] eq_refl) as (req & Hid & Hfd & _).
  exists req. split; [exact Hid |].
  apply (Hfd 7 [] eq_refl). split; [discriminate | reflexivity].
Defined.

(** C5 fails on the code: on a connection whose peer has gone the write of
    the request fails, and [UnregisterVM] returns without a read. *)
Lemma UnregisterVM_broken_pipe_no_read :
  ~ exists req,
      api.conn_trace (snd (client.UnregisterVM example_Marshal "c1" broken_pipe)) =
      [api.EvWriteMessage api.TypeCommand req; api.EvReadMessage].
Proof.
  intros (req & H). vm_compute in H. discriminate H.
Qed.

Lemma one_request_per_call_witness :
  (exists b,
     example_Marshal (client.any_UnregisterVM (api.mkUnregisterVM "c1")) = inr b /\
     api.conn_trace
       (snd (client.UnregisterVM example_Marshal "c1"
               (answering (api.mkResponse true EmptyString ∅) []))) =
     [api.EvWriteMessage api.TypeCommand (api.mkRequest "unregister" (Some b));
      api.EvReadMessage]) /\
  (exists b,
     example_Marshal (client.any_UnregisterVM (api.mkUnregisterVM "c1")) = inr b /\
     api.conn_trace (snd (client.UnregisterVM example_Marshal "c1" broken_pipe)) =
     [api.EvWriteMessage api.TypeCommand (api.mkRequest "unregister" (Some b))]).
Proof.
  split.
  - exact (proj2 (proj2 (proj2 (proj2 (proj2 (proj2
             (one_request_per_call platform64 example_Marshal
                example_Marshal_encodes
                (answering (api.mkResponse true EmptyString ∅) []))))))) "c1").
  - exact (proj2 (proj2 (proj2 (proj2 (proj2 (proj2
             (one_request_per_call platform64 example_Marshal
                example_Marshal_encodes broken_pipe)))))) "c1").
Defined.

(** * Further properties of the client *)

Section ClientMore.

Context (P : Platform) {Message : Type}
        (json_Marshal : client.any Message -> error + api.bytes).

(** ** Every path of each operation *)

Lemma sendPayload_cases id v c :
  client.sendPayload json_Marshal id (Some v) c =
  match json_Marshal v with
  | inl err => (Normal (inl err), c)
  | inr b =>
      let req := api.mkRequest id (Some b) in
      match api.conn_broken c with
      | Some err =>
          (Normal (inl err),
           api.record (api.EvWriteMessage api.TypeCommand req) c)
      | None => (Normal (next_reply c), after_reply req c)
      end
  end.
Proof.
  destruct (json_Marshal v) as [err | b] eqn:Hm.
  - apply sendPayload_refused, Hm.
  - apply sendPayload_encoded, Hm.
Qed.

Lemma sendPayload_delivery id v c :
  client.sendPayload json_Marshal id (Some v) c =
  (Normal (delivery json_Marshal v c), left_by json_Marshal id v c).
Proof.
  unfold left_by, delivery. rewrite sendPayload_cases.
  destruct (json_Marshal v); [reflexivity |]; cbv zeta.
  destruct (api.conn_broken c); reflexivity.
Qed.

Lemma left_by_queues id v c :
  api.conn_broken (left_by json_Marshal id v c) = api.conn_broken c /\
  api.conn_fds (left_by json_Marshal id v c) = api.conn_fds c /\
  (api.conn_replies (left_by json_Marshal id v c) = api.conn_replies c \/
   api.conn_replies (left_by json_Marshal id v c) = tail (api.conn_replies c)).
Proof.
  unfold left_by. rewrite sendPayload_cases.
  destruct (json_Marshal v); [simpl; auto |]; cbv zeta.
  destruct (api.conn_broken c) eqn:Hw; simpl; auto.
Qed.

Lemma left_by_delivered id v c resp :
  delivery json_Marshal v c = inr resp ->
  exists b,
    json_Marshal v = inr b /\
    api.conn_broken c = None /\
    next_reply c = inr resp /\
    left_by json_Marshal id v c = after_reply (api.mkRequest id (Some b)) c.
Proof.
  unfold delivery, left_by. rewrite sendPayload_cases.
  destruct (json_Marshal v) as [err | b]; [discriminate |].
  destruct (api.conn_broken c); [discriminate |].
  intros Hr. exists b. auto.
Qed.

Lemma RegisterVM_cases cid ctl io opts c :
  let v := client.any_RegisterVM (register_payload cid ctl io opts) in
  client.RegisterVM P json_Marshal cid ctl io opts c =
  (match delivery json_Marshal v c with
   | inl err => Normal (None, Some err)
   | inr resp =>
       match api.resp_Data resp !! "version" with
       | None =>
           Normal (None, Some (errors_New "RegisterVM: no version in response"))
       | Some val =>
           match assert_float64 val with
           | Normal f =>
               Normal (Some (client.mkRegisterVMReturn (float64_to_int P f)),
                       client.errorFromResponse resp)
           | Panic p => Panic p
           end
       end
   end, left_by json_Marshal "register" v c).
Proof.
  intros v. unfold client.RegisterVM, api.bind.
  fold (register_payload cid ctl io opts). fold v.
  rewrite sendPayload_delivery.
  destruct (delivery json_Marshal v c) as [err | resp]; [reflexivity |].
  destruct (api.resp_Data resp !! "version") as [val |]; [| reflexivity].
  unfold api.lift, api.ret. destruct (assert_float64 val); reflexivity.
Qed.

Lemma Attach_cases cid opts c :
  let v := client.any_Attach (api.mkAttach cid) in
  client.Attach P json_Marshal cid opts c =
  (match delivery json_Marshal v c with
   | inl err => Normal (None, Some err)
   | inr resp =>
       match api.resp_Data resp !! "version" with
       | None =>
           Normal (None, Some (errors_New "attach: no version in response"))
       | Some val =>
           match assert_float64 val with
           | Normal f =>
               Normal (Some (client.mkAttachReturn (float64_to_int P f)),
                       client.errorFromResponse resp)
           | Panic p => Panic p
           end
       end
   end, left_by json_Marshal "attach" v c).
Proof.
  intros v. unfold client.Attach, api.bind. fold v.
  rewrite sendPayload_delivery.
  destruct (delivery json_Marshal v c) as [err | resp]; [reflexivity |].
  destruct (api.resp_Data resp !! "version") as [val |]; [| reflexivity].
  unfold api.lift, api.ret. destruct (assert_float64 val); reflexivity.
Qed.

Lemma AllocateIo_cases n c :
  let v := client.any_AllocateIo (api.mkAllocateIo n) in
  let c' := left_by json_Marshal "allocateIO" v c in
  client.AllocateIo P json_Marshal n c =
  match delivery json_Marshal v c with
  | inl err => (Normal (0, None, Some err), c')
  | inr resp =>
      match client.errorFromResponse resp with
      | Some err => (Normal (0, None, Some err), c')
      | None =>
          match api.resp_Data resp !! "ioBase" with
          | None =>
              (Normal (0, None,
                       Some (errors_New "allocateio: no ioBase in response")),
               c')
          | Some val =>
              match assert_float64 val with
              | Panic p => (Panic p, c')
              | Normal f =>
                  (match next_fd c with
                   | inl _ =>
                       Normal (0, None,
                               Some (errors_New "allocateio: couldn't read fd"))
                   | inr newFd =>
                       Normal (float64_to_uint64 P f,
                               os_NewFile P (to_uintptr P newFd) EmptyString,
                               None)
                   end, after_fd c')
              end
          end
      end
  end.
Proof.
  intros v c'. unfold client.AllocateIo, api.bind. fold v.
  rewrite sendPayload_delivery. fold c'.
  destruct (delivery json_Marshal v c) as [err | resp]; [reflexivity |].
  destruct (client.errorFromResponse resp); [reflexivity |].
  destruct (api.resp_Data resp !! "ioBase") as [val |]; [| reflexivity].
  unfold api.lift, api.ret. destruct (assert_float64 val); [| reflexivity].
  rewrite ReadFd_next.
  assert (Hfds : next_fd c' = next_fd c).
  { unfold next_fd, c'.
    destruct (left_by_queues "allocateIO" v c) as (_ & -> & _). reflexivity. }
  rewrite Hfds. destruct (next_fd c); reflexivity.
Qed.

Lemma UnregisterVM_cases cid c :
  let v := client.any_UnregisterVM (api.mkUnregisterVM cid) in
  client.UnregisterVM json_Marshal cid c =
  (Normal match delivery json_Marshal v c with
          | inl err => Some err
          | inr resp => client.errorFromResponse resp
          end, left_by json_Marshal "unregister" v c).
Proof.
  intros v. unfold client.UnregisterVM, api.bind. fold v.
  rewrite sendPayload_delivery.
  destruct (delivery json_Marshal v c); reflexivity.
Qed.

Lemma Hyper_cases name msg c :
  client.Hyper json_Marshal name msg c =
  match hyper_data json_Marshal msg with
  | inl err => (Normal (Some err), c)
  | inr d =>
      let v := client.any_Hyper (api.mkHyper name d) in
      (Normal match delivery json_Marshal v c with
              | inl err => Some err
              | inr resp => client.errorFromResponse resp
              end, left_by json_Marshal "hyper" v c)
  end.
Proof.
  unfold client.Hyper, hyper_data.
  destruct msg as [m |];
    [destruct (json_Marshal (client.any_Message m)); [reflexivity |] |];
    cbv zeta; unfold api.bind; rewrite sendPayload_delivery;
    destruct (delivery json_Marshal _ c); reflexivity.
Qed.

(** ** Failures that come before a reply *)

(** X1: when the payload cannot be encoded, the write fails or the read of
    the reply fails, every operation hands that very error to its caller
    with zero-valued results, and [AllocateIo] receives no descriptor. *)
Theorem failure_propagates c err :
  (forall cid ctl io opts,
     delivery json_Marshal
       (client.any_RegisterVM (register_payload cid ctl io opts)) c = inl err ->
     fst (client.RegisterVM P json_Marshal cid ctl io opts c) =
     Normal (None, Some err)) /\
  (forall cid opts,
     delivery json_Marshal (client.any_Attach (api.mkAttach cid)) c = inl err ->
     fst (client.Attach P json_Marshal cid opts c) = Normal (None, Some err)) /\
  (forall n,
     delivery json_Marshal (client.any_AllocateIo (api.mkAllocateIo n)) c
     = inl err ->
     fst (client.AllocateIo P json_Marshal n c) = Normal (0, None, Some err) /\
     api.conn_fds (snd (client.AllocateIo P json_Marshal n c)) = api.conn_fds c) /\
  (forall name msg d,
     hyper_data json_Marshal msg = inr d ->
     delivery json_Marshal (client.any_Hyper (api.mkHyper name d)) c = inl err ->
     fst (client.Hyper json_Marshal name msg c) = Normal (Some err)) /\
  (forall cid,
     delivery json_Marshal (client.any_UnregisterVM (api.mkUnregisterVM cid)) c
     = inl err ->
     fst (client.UnregisterVM json_Marshal cid c) = Normal (Some err)).
Proof.
  split_and!.
  - intros cid ctl io opts Hd. rewrite RegisterVM_cases; cbv zeta.
    rewrite Hd. reflexivity.
  - intros cid opts Hd. rewrite Attach_cases; cbv zeta. rewrite Hd. reflexivity.
  - intros n Hd. rewrite AllocateIo_cases; cbv zeta. rewrite Hd. simpl.
    split; [reflexivity |]. apply left_by_queues.
  - intros name msg d Hh Hd. rewrite Hyper_cases, Hh; cbv zeta.
    rewrite Hd. reflexivity.
  - intros cid Hd. rewrite UnregisterVM_cases; cbv zeta. rewrite Hd.
    reflexivity.
Qed.

(** ** What a nil error tells the caller *)

Lemma errorFromResponse_None resp :
  client.errorFromResponse resp = None <-> api.resp_Success resp = true.
Proof.
  unfold client.errorFromResponse.
  destruct (api.resp_Success resp); simpl; [tauto |].
  destruct (negb (String.eqb (api.resp_Error resp) EmptyString));
    split; discriminate.
Qed.

(** X2: [errorFromResponse] is nil exactly for a response with
    [Success = true], and the error it makes never has an empty text. *)
Theorem errorFromResponse_nil_iff_success resp :
  (client.errorFromResponse resp = None <-> api.resp_Success resp = true) /\
  (forall e, client.errorFromResponse resp = Some e ->
     error_text e <> EmptyString).
Proof.
  split; [apply errorFromResponse_None |].
  unfold client.errorFromResponse.
  destruct (api.resp_Success resp); simpl; [discriminate |].
  destruct (String.eqb_spec (api.resp_Error resp) EmptyString) as [| Hne];
    simpl; intros e' [= <-]; simpl; [discriminate | exact Hne].
Qed.

(** X3: [UnregisterVM] and [Hyper] return a nil error exactly when the
    request was encoded, written and answered by a response with
    [Success = true]; the [Data] of the response plays no part. *)
Theorem nil_error_iff_success c :
  (forall cid,
     fst (client.UnregisterVM json_Marshal cid c) = Normal None <->
     exists resp,
       delivery json_Marshal
         (client.any_UnregisterVM (api.mkUnregisterVM cid)) c = inr resp /\
       api.resp_Success resp = true) /\
  (forall name msg,
     fst (client.Hyper json_Marshal name msg c) = Normal None <->
     exists d resp,
       hyper_data json_Marshal msg = inr d /\
       delivery json_Marshal (client.any_Hyper (api.mkHyper name d)) c
       = inr resp /\
       api.resp_Success resp = true).
Proof.
  split.
  - intros cid. rewrite UnregisterVM_cases; cbv zeta; simpl.
    destruct (delivery json_Marshal _ c) as [err | resp].
    + split; [discriminate | intros (resp & [=] & _)].
    + split.
      * intros [= He]. exists resp. split; [reflexivity |].
        apply (errorFromResponse_None resp), He.
      * intros (resp' & [= <-] & Hs).
        apply (errorFromResponse_None resp) in Hs. rewrite Hs.
        reflexivity.
  - intros name msg. rewrite Hyper_cases.
    destruct (hyper_data json_Marshal msg) as [err | d]; simpl.
    + split; [discriminate | intros (d & resp & [=] & _)].
    + destruct (delivery json_Marshal _ c) as [err | resp] eqn:Hd.
      * split; [discriminate |].
        intros (d' & resp & [= <-] & Hd' & _). rewrite Hd in Hd'. discriminate.
      * split.
        -- intros [= He]. exists d, resp. split_and!; [reflexivity | exact Hd |].
           apply (errorFromResponse_None resp), He.
        -- intros (d' & resp' & [= <-] & Hd' & Hs).
           rewrite Hd in Hd'. injection Hd' as <-.
           apply (errorFromResponse_None resp) in Hs. rewrite Hs.
           reflexivity.
Qed.

(** X4: whenever [RegisterVM] or [Attach] returns a nil error, its result
    is non-nil: the request was answered by a response with
    [Success = true] whose "version" is a number, and the result holds that
    number narrowed to [int]. Neither ever returns a nil result with a nil
    error. *)
Theorem nil_error_gives_version c :
  (forall cid ctl io opts ret,
     fst (client.RegisterVM P json_Marshal cid ctl io opts c) = Normal (ret, None) ->
     exists resp f,
       delivery json_Marshal
         (client.any_RegisterVM (register_payload cid ctl io opts)) c
       = inr resp /\
       api.resp_Success resp = true /\
       api.resp_Data resp !! "version" = Some (VFloat64 f) /\
       ret = Some (client.mkRegisterVMReturn (float64_to_int P f))) /\
  (forall cid opts ret,
     fst (client.Attach P json_Marshal cid opts c) = Normal (ret, None) ->
     exists resp f,
       delivery json_Marshal (client.any_Attach (api.mkAttach cid)) c
       = inr resp /\
       api.resp_Success resp = true /\
       api.resp_Data resp !! "version" = Some (VFloat64 f) /\
       ret = Some (client.mkAttachReturn (float64_to_int P f))).
Proof.
  split.
  - intros cid ctl io opts ret. rewrite RegisterVM_cases; cbv zeta; simpl.
    destruct (delivery json_Marshal _ c) as [err | resp]; [discriminate |].
    destruct (api.resp_Data resp !! "version") as [[] |] eqn:Hv;
      try discriminate; simpl.
    intros [= <- He]. exists resp, f. split_and!; try reflexivity; [| exact Hv].
    apply (errorFromResponse_None resp), He.
  - intros cid opts ret. rewrite Attach_cases; cbv zeta; simpl.
    destruct (delivery json_Marshal _ c) as [err | resp]; [discriminate |].
    destruct (api.resp_Data resp !! "version") as [[] |] eqn:Hv;
      try discriminate; simpl.
    intros [= <- He]. exists resp, f. split_and!; try reflexivity; [| exact Hv].
    apply (errorFromResponse_None resp), He.
Qed.

(** X5: what [AllocateIo] returns fits together. With a non-nil error the
    base is 0 and the file nil. With a nil error the request was answered
    by a response with [Success = true] whose "ioBase" is a number, one
    descriptor was received, the base is that number narrowed to [uint64]
    and the file is what [os.NewFile] makes of the descriptor. *)
Theorem AllocateIo_results c n ioBase ioFile err :
  fst (client.AllocateIo P json_Marshal n c) = Normal (ioBase, ioFile, err) ->
  match err with
  | Some _ => ioBase = 0 /\ ioFile = None
  | None =>
      exists resp f newFd,
        delivery json_Marshal (client.any_AllocateIo (api.mkAllocateIo n)) c
        = inr resp /\
        api.resp_Success resp = true /\
        api.resp_Data resp !! "ioBase" = Some (VFloat64 f) /\
        next_fd c = inr newFd /\
        ioBase = float64_to_uint64 P f /\
        ioFile = os_NewFile P (to_uintptr P newFd) EmptyString /\
        api.conn_fds (snd (client.AllocateIo P json_Marshal n c)) =
        tail (api.conn_fds c)
  end.
Proof.
  rewrite AllocateIo_cases; cbv zeta.
  destruct (delivery json_Marshal _ c) as [derr | resp]; simpl;
    [intros [= <- <- <-]; auto |].
  destruct (client.errorFromResponse resp) eqn:He; simpl;
    [intros [= <- <- <-]; auto |].
  destruct (api.resp_Data resp !! "ioBase") as [[] |] eqn:Hv; simpl;
    try discriminate; [| intros [= <- <- <-]; auto].
  destruct (next_fd c) as [ferr | newFd] eqn:Hfd; intros [= <- <- <-]; [auto |].
  exists resp, f, newFd. split_and!; try reflexivity; try assumption.
  - apply (errorFromResponse_None resp), He.
  - f_equal. apply left_by_queues.
Qed.

(** ** Panics *)


(** ** What a call takes off the connection *)

(** X7: a call never changes whether writes fail, takes at most one reply
    off the connection, and only [AllocateIo] takes a descriptor, at most
    one: [RegisterVM], [Attach], [Hyper] and [UnregisterVM] leave the
    descriptors as they found them. *)
Theorem calls_consume_at_most_one c :
  let kept (c' : api.UnixConn) :=
    api.conn_broken c' = api.conn_broken c /\
    (api.conn_replies c' = api.conn_replies c \/
     api.conn_replies c' = tail (api.conn_replies c)) in
  (forall cid ctl io opts,
     let c' := snd (client.RegisterVM P json_Marshal cid ctl io opts c) in
     kept c' /\ api.conn_fds c' = api.conn_fds c) /\
  (forall cid opts,
     let c' := snd (client.Attach P json_Marshal cid opts c) in
     kept c' /\ api.conn_fds c' = api.conn_fds c) /\
  (forall name msg,
     let c' := snd (client.Hyper json_Marshal name msg c) in
     kept c' /\ api.conn_fds c' = api.conn_fds c) /\
  (forall cid,
     let c' := snd (client.UnregisterVM json_Marshal cid c) in
     kept c' /\ api.conn_fds c' = api.conn_fds c) /\
  (forall n,
     let c' := snd (client.AllocateIo P json_Marshal n c) in
     kept c' /\
     (api.conn_fds c' = api.conn_fds c \/
      api.conn_fds c' = tail (api.conn_fds c))).
Proof.
  intros kept.
  assert (Hkept : forall id v,
            kept (left_by json_Marshal id v c) /\
            api.conn_fds (left_by json_Marshal id v c) = api.conn_fds c).
  { intros id v. unfold kept.
    destruct (left_by_queues id v c) as (Hb & Hf & Hr). auto. }
  split_and!.
  - intros cid ctl io opts c'. subst c'.
    rewrite RegisterVM_cases; cbv zeta. apply Hkept.
  - intros cid opts c'. subst c'. rewrite Attach_cases; cbv zeta. apply Hkept.
  - intros name msg c'. subst c'. rewrite Hyper_cases.
    destruct (hyper_data json_Marshal msg); [| apply Hkept].
    unfold kept; simpl. auto.
  - intros cid c'. subst c'. rewrite UnregisterVM_cases; cbv zeta. apply Hkept.
  - intros n c'. subst c'. rewrite AllocateIo_cases; cbv zeta.
    destruct (Hkept "allocateIO"
                (client.any_AllocateIo (Message := Message) (api.mkAllocateIo n)))
      as ((Hb & Hr) & Hf).
    destruct (delivery json_Marshal _ c) as [err | resp]; [simpl; unfold kept; auto |].
    destruct (client.errorFromResponse resp); [simpl; unfold kept; auto |].
    destruct (api.resp_Data resp !! "ioBase") as [val |];
      [| simpl; unfold kept; auto].
    destruct (assert_float64 val); [| simpl; unfold kept; auto].
    unfold kept, after_fd; simpl. rewrite Hf. auto.
Qed.

(** ** Calls in sequence *)

Lemma advanced_after_reply n evs req c :
  advanced n evs (after_reply req c) =
  advanced (S n)
    ([api.EvWriteMessage api.TypeCommand req; api.EvReadMessage] ++ evs) c.
Proof.
  unfold advanced, after_reply; simpl. f_equal.
  - destruct (api.conn_replies c); simpl; rewrite ?drop_nil; reflexivity.
  - rewrite <- app_assoc. reflexivity.
Qed.

(** X8: replies are matched to requests by position. When the containers
    of a list are unregistered one after the other on a connection whose
    writes succeed and whose peer has as many responses queued, the n-th
    call returns the error derived from the n-th response, whether the
    responses before it reported success or not; the queue is left with
    what followed those responses, and each call made one write and one
    read, in order. *)
Theorem replies_matched_in_order cids resps rest c :
  encodes_payloads json_Marshal ->
  api.conn_broken c = None ->
  api.conn_replies c = (map inr resps ++ rest)%list ->
  length cids = length resps ->
  in_turn (map (client.UnregisterVM json_Marshal) cids) c =
  (Normal (map client.errorFromResponse resps),
   advanced (length cids) (unregister_calls json_Marshal cids) c) /\
  api.conn_replies
    (advanced (length cids) (unregister_calls json_Marshal cids) c) = rest.
Proof.
  intros Henc Hw Hr Hlen. split.
  - revert resps c Hw Hr Hlen.
    induction cids as [| cid cids IH]; intros [| resp resps] c Hw Hr Hlen;
      try discriminate Hlen.
    + unfold advanced; simpl. rewrite app_nil_r. destruct c; reflexivity.
    + simpl in Hr. injection Hlen as Hlen.
      destruct (Henc (client.any_UnregisterVM (api.mkUnregisterVM cid)) eq_refl)
        as [b Hb].
      assert (Hd : delivery json_Marshal
                     (client.any_UnregisterVM (api.mkUnregisterVM cid)) c
                   = inr resp).
      { unfold delivery, next_reply. rewrite Hb, Hw, Hr. reflexivity. }
      destruct (left_by_delivered "unregister" _ c resp Hd)
        as (b' & Hb' & _ & _ & Hleft).
      rewrite Hb in Hb'. injection Hb' as <-.
      cbn [map in_turn]. unfold api.bind at 1.
      rewrite UnregisterVM_cases; cbv zeta. rewrite Hd, Hleft.
      unfold api.bind at 1.
      rewrite (IH resps (after_reply (api.mkRequest "unregister" (Some b)) c));
        [| exact Hw | unfold after_reply; simpl; rewrite Hr; reflexivity
         | exact Hlen].
      unfold api.ret. rewrite advanced_after_reply.
      unfold unregister_calls; simpl. unfold encoded at 2. rewrite Hb.
      reflexivity.
  - unfold advanced; simpl. rewrite Hr, Hlen.
    rewrite <- (length_map (@inr error api.Response) resps).
    apply drop_app_length.
Qed.

End ClientMore.

(** ** Numbers that survive the narrowing *)

Lemma digits2_pos_bounds p :
  2 ^ (Z.pos (digits2_pos p) - 1) <= Z.pos p < 2 ^ Z.pos (digits2_pos p).
Proof.
  induction p as [p IH | p IH |]; simpl digits2_pos.
  - rewrite Pos2Z.inj_succ.
    replace (Z.succ (Z.pos (digits2_pos p)) - 1) with (Z.pos (digits2_pos p)) by lia.
    rewrite Z.pow_succ_r by lia.
    assert (H : 2 ^ Z.pos (digits2_pos p) = 2 * 2 ^ (Z.pos (digits2_pos p) - 1)).
    { rewrite <- Z.pow_succ_r by lia. f_equal. lia. }
    lia.
  - rewrite Pos2Z.inj_succ.
    replace (Z.succ (Z.pos (digits2_pos p)) - 1) with (Z.pos (digits2_pos p)) by lia.
    rewrite Z.pow_succ_r by lia.
    assert (H : 2 ^ Z.pos (digits2_pos p) = 2 * 2 ^ (Z.pos (digits2_pos p) - 1)).
    { rewrite <- Z.pow_succ_r by lia. f_equal. lia. }
    lia.
  - simpl. lia.
Qed.

Lemma iter_xO_value p k :
  Z.pos (Pos.iter xO p k) = Z.pos p * 2 ^ Z.pos k.
Proof.
  induction k as [| k IH] using Pos.peano_ind.
  - simpl. lia.
  - rewrite Pos.iter_succ, Pos2Z.inj_succ, Z.pow_succ_r by lia.
    rewrite Pos2Z.inj_xO, IH. lia.
Qed.

Lemma iter_xO_digits p k :
  digits2_pos (Pos.iter xO p k) = (digits2_pos p + k)%positive.
Proof.
  induction k as [| k IH] using Pos.peano_ind.
  - simpl. lia.
  - rewrite Pos.iter_succ. simpl digits2_pos. rewrite IH. lia.
Qed.

Lemma binary_round_aligned s m e :
  Z.pos (digits2_pos m) = 53 -> -1074 <= e <= 971 ->
  binary_round_aux 53 1024 s (Z.pos m) e loc_Exact = S754_finite s m e.
Proof.
  intros Hd He.
  assert (Hshr : shr_fexp 53 1024 (Z.pos m) e loc_Exact =
                 ({| shr_m := Z.pos m; shr_r := false; shr_s := false |}, e)).
  { unfold shr_fexp, fexp, emin. simpl Zdigits2. rewrite Hd.
    replace (Z.max (53 + e - 53) (3 - 1024 - 53) - e) with 0 by lia.
    reflexivity. }
  unfold binary_round_aux. rewrite Hshr. simpl. rewrite Hshr. simpl.
  change (1024 - 53) with 971.
  destruct (Z.leb_spec e 971); [reflexivity | lia].
Qed.

Lemma float64_trunc_round s p :
  Z.pos p < 2 ^ 53 ->
  float64_trunc (binary_round 53 1024 s p 0) =
  Some (if s then - Z.pos p else Z.pos p).
Proof.
  intros Hp.
  pose proof (digits2_pos_bounds p) as [Hlo _].
  assert (Hd : Z.pos (digits2_pos p) <= 53).
  { destruct (Z.le_gt_cases (Z.pos (digits2_pos p)) 53) as [H | H]; [exact H |].
    exfalso. assert (2 ^ 53 <= 2 ^ (Z.pos (digits2_pos p) - 1))
      by (apply Z.pow_le_mono_r; lia). lia. }
  unfold binary_round, shl_align, fexp, emin.
  rewrite Z.max_l by lia.
  destruct (Z.pos (digits2_pos p) + 0 - 53 - 0) as [| k | k] eqn:Hk; try lia.
  - rewrite binary_round_aligned by lia. simpl. rewrite Z.add_0_r in *.
    reflexivity.
  - rewrite binary_round_aligned.
    + unfold float64_trunc. f_equal.
      assert (Hsh : Z.shiftl (Z.pos (Pos.iter xO p k)) (Z.pos (digits2_pos p) + 0 - 53) = Z.pos p).
      { replace (Z.pos (digits2_pos p) + 0 - 53) with (- Z.pos k) by lia.
        rewrite Z.shiftl_opp_r, Z.shiftr_div_pow2 by lia.
        rewrite iter_xO_value. apply Z.div_mul. lia. }
      rewrite Hsh. reflexivity.
    + rewrite iter_xO_digits. lia.
    + lia.
Qed.

Lemma float64_trunc_of_Z n :
  - 2 ^ 53 < n < 2 ^ 53 -> float64_trunc (float64_of_Z n) = Some n.
Proof.
  intros Hn. unfold float64_of_Z, binary_normalize.
  destruct n as [| p | p]; [reflexivity | |].
  - apply (float64_trunc_round false). lia.
  - apply (float64_trunc_round true). lia.
Qed.

Lemma float64_to_int_of_Z P n :
  - 2 ^ 31 <= n < 2 ^ 31 -> float64_to_int P (float64_of_Z n) = n.
Proof.
  intros Hn. unfold float64_to_int.
  rewrite float64_trunc_of_Z by lia.
  assert (Hfits : fits_signed (intSize (arch P)) n = true).
  { unfold fits_signed. apply andb_true_iff.
    rewrite Z.leb_le, Z.ltb_lt.
    destruct (arch P); simpl intSize; simpl Z.sub; lia. }
  rewrite Hfits. reflexivity.
Qed.

Lemma float64_to_uint64_of_Z P n :
  0 <= n < 2 ^ 53 -> float64_to_uint64 P (float64_of_Z n) = n.
Proof.
  intros Hn. unfold float64_to_uint64.
  rewrite float64_trunc_of_Z by lia.
  assert (Hfits : fits_unsigned 64 n = true).
  { unfold fits_unsigned. apply andb_true_iff.
    rewrite Z.leb_le, Z.ltb_lt. lia. }
  rewrite Hfits. reflexivity.
Qed.

Lemma os_NewFile_int P fd name :
  fits_signed (intSize (arch P)) fd = true ->
  os_NewFile P (to_uintptr P fd) name =
  if fd <? 0 then None else Some (mkFile fd name).
Proof.
  unfold fits_signed. rewrite andb_true_iff, Z.leb_le, Z.ltb_lt.
  intros Hfd.
  assert (Hback : uintptr_to_int P (to_uintptr P fd) = fd).
  { unfold uintptr_to_int, to_uintptr, wrap_signed, wrap_unsigned.
    destruct (arch P); simpl intSize in *; simpl Z.sub in *;
      [ change (2 ^ 32) with 4294967296;
        change (2 ^ 31) with 2147483648 in *
      | change (2 ^ 64) with 18446744073709551616;
        change (2 ^ 63) with 9223372036854775808 in * ];
      Z.to_euclidean_division_equations; lia. }
  unfold os_NewFile. rewrite Hback. reflexivity.
Qed.

Section ClientNumbers.

Context (P : Platform) {Message : Type}
        (json_Marshal : client.any Message -> error + api.bytes).

(** X9: the version survives the narrowing. When the response read binds
    "version" to the number of an integer [n] that fits 32 bits,
    [RegisterVM] and [Attach] return a result whose [Version] is [n], on a
    32-bit as on a 64-bit platform, with the error derived from the
    response. *)
Theorem version_round_trip c resp n :
  - 2 ^ 31 <= n < 2 ^ 31 ->
  api.resp_Data resp !! "version" = Some (VFloat64 (float64_of_Z n)) ->
  (forall cid ctl io opts,
     delivery json_Marshal
       (client.any_RegisterVM (register_payload cid ctl io opts)) c
     = inr resp ->
     fst (client.RegisterVM P json_Marshal cid ctl io opts c) =
     Normal (Some (client.mkRegisterVMReturn n),
             client.errorFromResponse resp)) /\
  (forall cid opts,
     delivery json_Marshal (client.any_Attach (api.mkAttach cid)) c
     = inr resp ->
     fst (client.Attach P json_Marshal cid opts c) =
     Normal (Some (client.mkAttachReturn n), client.errorFromResponse resp)).
Proof.
  intros Hn Hv. split.
  - intros cid ctl io opts Hd. rewrite RegisterVM_cases; cbv zeta.
    rewrite Hd, Hv. simpl. rewrite (float64_to_int_of_Z P n Hn). reflexivity.
  - intros cid opts Hd. rewrite Attach_cases; cbv zeta.
    rewrite Hd, Hv. simpl. rewrite (float64_to_int_of_Z P n Hn). reflexivity.
Qed.

(** X10: on a response with [Success = true] that binds "ioBase" to the
    number of an integer [base] below 2^53, and with the descriptor [fd]
    received, [AllocateIo] returns [base] and a nil error; the file wraps
    [fd] when [fd] is not negative and is nil when it is: a negative
    descriptor gives a nil file together with a nil error. *)
Theorem AllocateIo_base_and_file c n resp base fd :
  delivery json_Marshal (client.any_AllocateIo (api.mkAllocateIo n)) c
  = inr resp ->
  api.resp_Success resp = true ->
  api.resp_Data resp !! "ioBase" = Some (VFloat64 (float64_of_Z base)) ->
  0 <= base < 2 ^ 53 ->
  next_fd c = inr fd ->
  fits_signed (intSize (arch P)) fd = true ->
  fst (client.AllocateIo P json_Marshal n c) =
  Normal (base,
          (if fd <? 0 then None else Some (mkFile fd EmptyString)),
          None).
Proof.
  intros Hd Hs Hv Hbase Hfd Hfits.
  rewrite AllocateIo_cases; cbv zeta. rewrite Hd.
  apply (errorFromResponse_None resp) in Hs. rewrite Hs, Hv. simpl.
  rewrite Hfd, (float64_to_uint64_of_Z P base Hbase),
    (os_NewFile_int P fd EmptyString Hfits).
  reflexivity.
Qed.

End ClientNumbers.

(** ** The enumerations and the header fields *)

(** X11: every declared frame type fits the 8-bit [Type] field of the
    header; every opcode valid for a frame type fits the 16-bit [Opcode]
    field, and the frame type it is valid for is a declared one; no two
    constants of a block have the same value. *)
Theorem enumerations_fit_header :
  (forall ty : Z, ty ∈ api.FrameTypes -> fits_unsigned 8 ty = true) /\
  (forall ty op, api.valid_opcode ty op = true ->
     ty ∈ api.FrameTypes /\ fits_unsigned 16 op = true) /\
  NoDup api.FrameTypes /\ NoDup api.Commands /\ NoDup api.Streams.
Proof.
  split_and!.
  - intros ty Hty. apply FrameTypes_range in Hty.
    unfold fits_unsigned, api.typeMax in *.
    apply andb_true_iff. rewrite Z.leb_le, Z.ltb_lt. lia.
  - intros ty op. unfold api.valid_opcode.
    destruct (opcode_space_cases ty)
      as [(-> & -> & _) | [(-> & -> & _) | (-> & _)]]; [| | discriminate];
      rewrite bool_decide_eq_true; intros Hop.
    + apply Commands_range in Hop. split.
      * apply FrameTypes_range. unfold api.TypeCommand, api.typeMax. lia.
      * unfold fits_unsigned, api.cmdMax in *.
        apply andb_true_iff. rewrite Z.leb_le, Z.ltb_lt. lia.
    + apply Streams_range in Hop. split.
      * apply FrameTypes_range. unfold api.TypeStream, api.typeMax. lia.
      * unfold fits_unsigned, api.streamMax in *.
        apply andb_true_iff. rewrite Z.leb_le, Z.ltb_lt. lia.
  - compute_done.
  - compute_done.
  - compute_done.
Qed.

(** ** The further properties at work on the example peer *)

Lemma failure_propagates_witness :
  fst (client.UnregisterVM example_Marshal "c1" broken_pipe) =
  Normal (Some (errors_New "write: broken pipe")) /\
  fst (client.AllocateIo platform64 example_Marshal 4 broken_pipe) =
  Normal (0, None, Some (errors_New "write: broken pipe")).
Proof.
  pose proof (failure_propagates platform64 example_Marshal broken_pipe
                (errors_New "write: broken pipe"))
    as (_ & _ & Halloc & _ & Hunreg).
  split.
  - exact (Hunreg "c1" eq_refl).
  - exact (proj1 (Halloc 4 eq_refl)).
Defined.

Lemma nil_error_gives_version_witness :
  exists resp f,
    delivery example_Marshal (client.any_Attach (api.mkAttach "container-A"))
      (answering (api.mkResponse true EmptyString version_2) []) = inr resp /\
    api.resp_Success resp = true /\
    api.resp_Data resp !! "version" = Some (VFloat64 f) /\
    Some (client.mkAttachReturn 2) =
    Some (client.mkAttachReturn (float64_to_int platform64 f)).
Proof.
  exact (proj2 (nil_error_gives_version platform64 example_Marshal
                  (answering (api.mkResponse true EmptyString version_2) []))
           "container-A" None (Some (client.mkAttachReturn 2)) eq_refl).
Defined.

Lemma AllocateIo_results_witness :
  exists resp f newFd,
    delivery example_Marshal (client.any_AllocateIo (api.mkAllocateIo 4))
      (answering (api.mkResponse true EmptyString ioBase_1024) [inr 7])
    = inr resp /\
    api.resp_Success resp = true /\
    api.resp_Data resp !! "ioBase" = Some (VFloat64 f) /\
    next_fd (answering (api.mkResponse true EmptyString ioBase_1024) [inr 7])
    = inr newFd /\
    1024 = float64_to_uint64 platform64 f /\
    Some (mkFile 7 EmptyString) =
    os_NewFile platform64 (to_uintptr platform64 newFd) EmptyString /\
    api.conn_fds
      (snd (client.AllocateIo platform64 example_Marshal 4
              (answering (api.mkResponse true EmptyString ioBase_1024)
                 [inr 7]))) = [].
Proof.
  exact (AllocateIo_results platform64 example_Marshal
           (answering (api.mkResponse true EmptyString ioBase_1024) [inr 7])
           4 1024 (Some (mkFile 7 EmptyString)) None eq_refl).
Defined.


Lemma replies_matched_in_order_witness :
  let busy := api.mkResponse false "busy" ∅ in
  let done := api.mkResponse true EmptyString ∅ in
  let c := api.mkConn None [inr busy; inr done] [] [] in
  in_turn (map (client.UnregisterVM example_Marshal) ["c1"; "c2"]) c =
  (Normal [Some (errors_New "busy"); None],
   advanced 2 (unregister_calls example_Marshal ["c1"; "c2"]) c) /\
  api.conn_replies
    (advanced 2 (unregister_calls example_Marshal ["c1"; "c2"]) c) = [].
Proof.
  intros busy done c.
  exact (replies_matched_in_order example_Marshal ["c1"; "c2"] [busy; done]
           [] c example_Marshal_encodes eq_refl eq_refl eq_refl).
Defined.

Lemma version_round_trip_witness :
  fst (client.Attach platform64 example_Marshal "container-A" None
         (answering (api.mkResponse false "busy" version_2) [])) =
  Normal (Some (client.mkAttachReturn 2), Some (errors_New "busy")).
Proof.
  assert (Hn : - 2 ^ 31 <= 2 < 2 ^ 31) by lia.
  exact (proj2 (version_round_trip platform64 example_Marshal
                  (answering (api.mkResponse false "busy" version_2) [])
                  (api.mkResponse false "busy" version_2) 2 Hn eq_refl)
           "container-A" None eq_refl).
Defined.

Lemma AllocateIo_base_and_file_witness :
  fst (client.AllocateIo platform64 example_Marshal 4
         (answering (api.mkResponse true EmptyString ioBase_1024)
            [inr (-1)])) =
  Normal (1024, None, None).
Proof.
  assert (Hbase : 0 <= 1024 < 2 ^ 53) by lia.
  exact (AllocateIo_base_and_file platform64 example_Marshal
           (answering (api.mkResponse true EmptyString ioBase_1024) [inr (-1)])
           4 (api.mkResponse true EmptyString ioBase_1024) 1024 (-1)
           eq_refl eq_refl eq_refl Hbase eq_refl eq_refl).
Defined.
